(** * FaceReg: the identity matcher and the liveness decision engine

    A shallow embedding of
      - [backend/app/core/config.py]               (module [Config]),
      - [backend/app/services/face_recognition.py] (module [FaceRecognition]),
      - [backend/app/services/depth_check.py]      (module [DepthCheck]),
      - [backend/app/services/liveness.py]         (module [Liveness]),
    over the slices, means and string formatting of Python and numpy
    (module [Np]) and the capabilities of OpenCV and MiDaS (module
    [Providers]), followed by the properties of the specification that
    concern them.  Module [Synthetic] holds a small frame format and
    providers on which the engine runs to the end.  Modules [Embedding]
    and [Auth] add the embedding extraction of [face_recognition.py] and
    the two handlers of [api/v1/endpoints/auth.py] that call the engine.

    Numbers.  Python floats are idealised: the embedding arithmetic of the
    identity matcher lives in the real numbers [R] (its claims are algebraic
    and need a square root), the scores and thresholds of the liveness engine
    live in the rationals [Q] (its claims are about decisions, and [Q] keeps
    them executable).  Rounding error is outside both models; the one
    floating-point effect the code can really produce from finite inputs, a
    division by a zero norm, is modelled by the type [float64]. *)

From Stdlib Require Import Strings.String Strings.Ascii Strings.Byte.
From Stdlib Require Import ZArith QArith Qround Qabs Reals Lra Lia Bool List.
Import ListNotations.

(* ================================================================== *)
(** * config.py *)

Module Config.

Record Settings : Type := {
  SIMILARITY_THRESHOLD : R;
  ADAPTIVE_ALPHA : R
}.

(** The defaults of [class Settings]; an [.env] file may override them,
    which is why the functions below take the settings as an argument. *)
Definition settings : Settings :=
  {| SIMILARITY_THRESHOLD := 593 / 1000;
     ADAPTIVE_ALPHA := 5 / 100 |}.

End Config.

(* ================================================================== *)
(** * face_recognition.py *)

Module FaceRecognition.
Import Config.
Local Open Scope R_scope.

(** A float64 cell as numpy can hand it back: a finite value, or one of
    the special values a division produces. *)
Inductive float64 : Type :=
| Finite (r : R)
| NaN
| Inf (negative : bool).

(** Sum of products over the common prefix; [np_dot] guards the lengths. *)
Fixpoint dot_aux (u v : list R) : R :=
  match u, v with
  | a :: u', b :: v' => a * b + dot_aux u' v'
  | _, _ => 0
  end.

(** [np.dot] on two 1-d arrays: a [ValueError] ([None]) unless the shapes
    agree. *)
Definition np_dot (u v : list R) : option R :=
  if Nat.eqb (length u) (length v) then Some (dot_aux u v) else None.

Definition scale (c : R) (v : list R) : list R := map (Rmult c) v.

Fixpoint add_aux (u v : list R) : list R :=
  match u, v with
  | a :: u', b :: v' => (a + b) :: add_aux u' v'
  | _, _ => []
  end.

(** [u + v] on 1-d arrays with numpy's broadcasting: equal shapes add
    pointwise, a one-element array is stretched, anything else raises. *)
Definition np_add (u v : list R) : option (list R) :=
  if Nat.eqb (length u) (length v) then Some (add_aux u v)
  else match u, v with
       | [a], _ => Some (map (fun b => a + b) v)
       | _, [b] => Some (map (fun a => a + b) u)
       | _, _ => None
       end.

Definition sumsq (v : list R) : R := dot_aux v v.

(** [np.linalg.norm] of a 1-d array. *)
Definition np_linalg_norm (v : list R) : R := sqrt (sumsq v).

(** Float division as numpy performs it: dividing by zero is a warning,
    not an exception, and yields [nan] or a signed infinity. *)
Definition np_divide (x n : R) : float64 :=
  if Req_dec_T n 0 then
    if Req_dec_T x 0 then NaN
    else if Rlt_dec x 0 then Inf true else Inf false
  else Finite (x / n).

(** [verify_face]: [(is_match, sim)], or [None] when [np.dot] raises. *)
Definition verify_face (cfg : Settings)
    (new_embedding stored_embedding : list R) : option (bool * R) :=
  match np_dot new_embedding stored_embedding with
  | None => None
  | Some sim =>
      Some (if Rle_dec (SIMILARITY_THRESHOLD cfg) sim then true else false,
            sim)
  end.

(** [adaptive_update]: the re-normalised blend, or [None] when the
    broadcast of the two arrays raises. *)
Definition adaptive_update (cfg : Settings)
    (stored_embedding new_embedding : list R) (alpha : option R)
    : option (list float64) :=
  let alpha := match alpha with
               | None => ADAPTIVE_ALPHA cfg
               | Some a => a
               end in
  match np_add (scale (1 - alpha) stored_embedding)
               (scale alpha new_embedding) with
  | None => None
  | Some updated =>
      let n := np_linalg_norm updated in
      Some (map (fun x => np_divide x n) updated)
  end.

(** The unit-norm invariant of a stored embedding, on what
    [adaptive_update] returns: every cell finite and Euclidean norm 1. *)
Definition unit_norm (out : option (list float64)) : Prop :=
  exists w, out = Some (map Finite w) /\ np_linalg_norm w = 1.

(** The first axis vector of dimension [S n], and its opposite. *)
Definition axis (n : nat) (x : R) : list R := x :: repeat 0 n.

(** A unit vector at similarity 0.593 from the first axis vector. *)
Definition at_threshold : list R :=
  593 / 1000 :: axis 126 (sqrt (1 - (593 / 1000) * (593 / 1000))).

End FaceRecognition.

(* ================================================================== *)
(** * Python and numpy building blocks used by the liveness engine *)

Module Np.

(** One bound of a Python slice on an axis of length [n]: a negative
    bound counts from the end, and the result is clamped to [0..n]. *)
Definition index (n i : Z) : Z :=
  let j := if (i <? 0)%Z then (i + n)%Z else i in
  Z.max 0 (Z.min n j).

(** [a[start:stop]] on an axis of length [n]: offset and length. *)
Definition slice (n : Z) (start stop : option Z) : Z * Z :=
  let lo := match start with Some a => index n a | None => 0%Z end in
  let hi := match stop with Some b => index n b | None => n end in
  (lo, Z.max 0 (hi - lo)).

(** A 2-d array: its shape and its cells. *)
Record ndarray (A : Type) : Type := mk_ndarray {
  nrows : Z;
  ncols : Z;
  item : Z -> Z -> A
}.
Arguments mk_ndarray {A} _ _ _.
Arguments nrows {A} _.
Arguments ncols {A} _.
Arguments item {A} _ _ _.

Definition size {A} (a : ndarray A) : Z := (nrows a * ncols a)%Z.

(** [a[r0:r1, c0:c1]]. *)
Definition crop {A} (a : ndarray A) (r0 r1 c0 c1 : option Z) : ndarray A :=
  let '(ro, rl) := slice (nrows a) r0 r1 in
  let '(co, cl) := slice (ncols a) c0 c1 in
  mk_ndarray rl cl (fun i j => item a (ro + i) (co + j))%Z.

Definition amap {A B} (f : A -> B) (a : ndarray A) : ndarray B :=
  mk_ndarray (nrows a) (ncols a) (fun i j => f (item a i j)).

Definition zrange (n : Z) : list Z := map Z.of_nat (seq 0 (Z.to_nat n)).

(** The cells in row-major order. *)
Definition ravel {A} (a : ndarray A) : list A :=
  flat_map (fun i => map (item a i) (zrange (ncols a))) (zrange (nrows a)).

Definition qsum (l : list Q) : Q := fold_right Qplus 0 l.

(** [np.mean]; the empty mean, numpy's [nan], does not arise below. *)
Definition mean (l : list Q) : Q := qsum l / inject_Z (Z.of_nat (length l)).

Definition Qltb (x y : Q) : bool := negb (Qle_bool y x).

Definition qmax (l : list Q) : Q :=
  match l with
  | [] => 0
  | x :: t => fold_left (fun m y => if Qltb m y then y else m) t x
  end.

Definition qmin (l : list Q) : Q :=
  match l with
  | [] => 0
  | x :: t => fold_left (fun m y => if Qltb y m then y else m) t x
  end.

(** [np.argmax]: the first position of the largest element. *)
Fixpoint argmax_from {A} (lt : A -> A -> bool)
    (best : A) (bi i : nat) (l : list A) : nat :=
  match l with
  | [] => bi
  | x :: t =>
      if lt best x then argmax_from lt x i (S i) t
      else argmax_from lt best bi (S i) t
  end.

Definition argmax {A} (lt : A -> A -> bool) (l : list A) : nat :=
  match l with
  | [] => O
  | x :: t => argmax_from lt x 0 1 t
  end.

(** numpy [int32] arithmetic wraps around. *)
Definition i32 (z : Z) : Z := ((z + 2 ^ 31) mod 2 ^ 32 - 2 ^ 31)%Z.

(** Python's [int(x)] on a float: truncation toward zero. *)
Definition py_int (x : Q) : Z :=
  if Qltb x 0 then Qceiling x else Qfloor x.

(** ** String formatting *)

Definition digit (d : Z) : ascii := ascii_of_nat (48 + Z.to_nat d).

Fixpoint digits_acc (fuel : nat) (n : Z) (acc : string) : string :=
  match fuel with
  | O => acc
  | S f =>
      let acc' := String (digit (n mod 10)) acc in
      if (n <? 10)%Z then acc' else digits_acc f (n / 10) acc'
  end.

(** Decimal digits of a natural number given as a [Z]. *)
Definition str_Z (n : Z) : string :=
  digits_acc (S (Z.to_nat (Z.log2 n))) n EmptyString.

Fixpoint zfill (width : nat) (s : string) : string :=
  match Nat.sub width (String.length s) with
  | O => s
  | S _ =>
      match width with
      | O => s
      | S w => String "0"%char (zfill w s)
      end
  end.

Definition round_half_even (x : Q) : Z :=
  let f := Qfloor x in
  match Qcompare (x - inject_Z f) (1 # 2) with
  | Lt => f
  | Gt => (f + 1)%Z
  | Eq => if Z.even f then f else (f + 1)%Z
  end.

(** [f"{x:.<d>f}"] for a finite [x]. *)
Definition fmt (d : nat) (x : Q) : string :=
  let p := (10 ^ Z.of_nat d)%Z in
  let n := round_half_even (Qabs x * inject_Z p) in
  let frac := match d with
              | O => EmptyString
              | S _ => String "."%char (zfill d (str_Z (n mod p)))
              end in
  ((if Qltb x 0 then "-" else "") ++ str_Z (n / p) ++ frac)%string.

(** [sep.join(l)]. *)
Fixpoint join (sep : string) (l : list string) : string :=
  match l with
  | [] => EmptyString
  | [s] => s
  | s :: t => (s ++ sep ++ join sep t)%string
  end.

End Np.

(* ================================================================== *)
(** * The capability providers: OpenCV, MiDaS and the numerical kernels *)

Module Providers.
Import Np.

(** A BGR pixel, a grayscale frame, a colour frame, a depth map. *)
Definition Pixel : Type := (Z * Z * Z)%type.
Definition Image : Type := ndarray Pixel.
Definition Gray : Type := ndarray Z.
Definition DepthMap : Type := ndarray Q.

(** A face rectangle [(x, y, w, h)]. *)
Definition Rect : Type := (Z * Z * Z * Z)%type.

(** What the engine consumes and does not own.  [lbp_entropy],
    [moire_ratio], [cr_variance] and [np_std] are the numerical kernels of
    [_lbp_entropy], [_moire_ratio], [_skin_cr_var] and [roi.std()]: they
    need [log2], an FFT, a colour transform and a square root, which the
    rational model does not have, so every result below holds whatever
    they return. *)
Record Vision : Type := {
  (** [cv2.imdecode(np.frombuffer(b, np.uint8), cv2.IMREAD_COLOR)] on a
      buffer that carries bytes: the image, or [None] when the bytes are
      not one.  On the empty buffer OpenCV asserts [!buf.empty()] and
      raises [cv2.error]; this field has no say there. *)
  imdecode : list byte -> option Image;
  (** [cv2.cvtColor(img, cv2.COLOR_BGR2GRAY)], pixel by pixel *)
  bgr2gray : Pixel -> Z;
  (** [cv2.Laplacian(gray, cv2.CV_64F).var()] *)
  laplacian_var : Gray -> Q;
  (** [cascade.detectMultiScale(gray, 1.1, 5, minSize=(60, 60))] *)
  detectMultiScale : Gray -> list Rect;
  lbp_entropy : Gray -> Q;
  moire_ratio : Gray -> Q;
  cr_variance : Image -> Q;
  (** the MiDaS session, when [midas_small.onnx] is present *)
  midas : option (Image -> DepthMap);
  np_std : DepthMap -> Q
}.

End Providers.

(* ================================================================== *)
(** * depth_check.py *)

Module DepthCheck.
Import Np Providers.
Local Open Scope Q_scope.

Definition DEPTH_RANGE_MIN : Q := 15.
Definition DEPTH_STD_MIN : Q := 5.

Definition estimate_depth (V : Vision) (img_bgr : Image) : option DepthMap :=
  match midas V with
  | None => None
  | Some session => Some (session img_bgr)
  end.

(** The face rectangle mapped into the coordinates of the depth map:
    [depth[dy : dy + dh, dx : dx + dw]].  The scale factors are exact
    quotients here; a decoded frame has positive width and height, so the
    [ZeroDivisionError] of [256.0 / 0] is out of reach. *)
Definition depth_roi (depth : DepthMap) (img_bgr : Image) (face_rect : Rect)
    : DepthMap :=
  let h_orig := nrows img_bgr in
  let w_orig := ncols img_bgr in
  let '(x, y, fw, fh) := face_rect in
  let sx := 256 / inject_Z w_orig in
  let sy := 256 / inject_Z h_orig in
  let dx := py_int (inject_Z x * sx) in
  let dy := py_int (inject_Z y * sy) in
  let dw := Z.max (py_int (inject_Z fw * sx)) 1 in
  let dh := Z.max (py_int (inject_Z fh * sy)) 1 in
  let dx := Z.max dx 0 in
  let dy := Z.max dy 0 in
  crop depth (Some dy) (Some (dy + dh)%Z) (Some dx) (Some (dx + dw)%Z).

Definition amean (a : DepthMap) : Q := mean (ravel a).

(** Centre-versus-edge gradient of the region. *)
Definition center_edge_gradient (roi : DepthMap) : Q :=
  let rh := nrows roi in
  let rw := ncols roi in
  let cy := (rh / 2)%Z in
  let cx := (rw / 2)%Z in
  let margin_y := Z.max (rh / 6) 2 in
  let margin_x := Z.max (rw / 6) 2 in
  let center := crop roi (Some (cy - margin_y)%Z) (Some (cy + margin_y)%Z)
                         (Some (cx - margin_x)%Z) (Some (cx + margin_x)%Z) in
  let edge_top := crop roi None (Some margin_y) None None in
  let edge_bottom := crop roi (Some (- margin_y)%Z) None None None in
  let edge_left := crop roi None None None (Some margin_x) in
  let edge_right := crop roi None None (Some (- margin_x)%Z) None in
  let edge_mean := mean [amean edge_top; amean edge_bottom;
                         amean edge_left; amean edge_right] in
  let center_mean := amean center in
  Qabs (center_mean - edge_mean).

(** [check_depth]: [(passed, depth_range, depth_std)]. *)
Definition check_depth (V : Vision) (img_bgr : Image) (face_rect : Rect)
    : bool * Q * Q :=
  match estimate_depth V img_bgr with
  | None => (true, 0, 0)
  | Some depth =>
      let roi := depth_roi depth img_bgr face_rect in
      if (size roi <? 100)%Z then (true, 0, 0)
      else
        let d_range := qmax (ravel roi) - qmin (ravel roi) in
        let d_std := np_std V roi in
        let gradient := center_edge_gradient roi in
        let passed := Qle_bool DEPTH_STD_MIN d_std
                      || Qle_bool DEPTH_RANGE_MIN gradient in
        (passed, d_range, d_std)
  end.

End DepthCheck.

(* ================================================================== *)
(** * liveness.py *)

Module Liveness.
Import Np Providers DepthCheck.
Local Open Scope Q_scope.
Local Open Scope string_scope.

Definition BLUR_MIN_SINGLE : Q := 25.
Definition BLUR_MIN_SEQ : Q := 15.
Definition MOTION_AVG_MIN : Q := 8 # 10.
Definition LBP_ENTROPY_MIN : Q := 45 # 10.
Definition MOIRE_RATIO_MAX : Q := 96 # 100.
Definition SKIN_CR_VAR_MIN : Q := 8.

Record LivenessResult : Type := mkLivenessResult {
  passed : bool;
  reason : string;
  blur_score : Q;
  motion_score : Q
}.

(** What a call does: it returns a value or an exception escapes it. *)
Inductive outcome (A : Type) : Type :=
| Returned (a : A)
| Raised (exc : string).
Arguments Returned {A} _.
Arguments Raised {A} _.

(** A [(name, failed, value)] reading of one anti-spoof signal. *)
Definition Signal : Type := (string * bool * string)%type.

(** The answer of [_decode] on bytes the decoder accepts; see
    [carries_bytes] below for the empty buffer, where [cv2.imdecode]
    raises. *)
Definition _decode (V : Vision) (image_bytes : list byte) : option Image :=
  imdecode V image_bytes.

Definition cvtColor_gray (V : Vision) (img : Image) : Gray :=
  amap (bgr2gray V) img.

Definition _blur (V : Vision) (gray : Gray) : Q := laplacian_var V gray.

(** Largest face by [w * h], or [None]. *)
Definition _find_face (V : Vision) (gray : Gray) : option Rect :=
  match detectMultiScale V gray with
  | [] => None
  | (f0 :: _) as faces =>
      let areas := map (fun '(x, y, w, h) => i32 (w * h)) faces in
      Some (nth (argmax Z.ltb areas) faces f0)
  end.

Definition _skin_cr_var (V : Vision) (img_bgr : Image) (rect : Rect) : Q :=
  let '(x, y, fw, fh) := rect in
  let roi := crop img_bgr (Some y) (Some (i32 (y + fh)))
                          (Some x) (Some (i32 (x + fw))) in
  if (size roi =? 0)%Z then 100 else cr_variance V roi.

(** The face crop [gray[y : y + fh, x : x + fw]]. *)
Definition face_crop (gray : Gray) (rect : Rect) : Gray :=
  let '(x, y, fw, fh) := rect in
  crop gray (Some y) (Some (i32 (y + fh))) (Some x) (Some (i32 (x + fw))).

Definition _antispoof (V : Vision) (img : Image) (gray : Gray) (rect : Rect)
    : list Signal :=
  let gf := face_crop gray rect in
  if (nrows gf <? 30)%Z || (ncols gf <? 30)%Z then []
  else
    let ent := lbp_entropy V gf in
    let moire := moire_ratio V gf in
    let cr_var := _skin_cr_var V img rect in
    [ ("texture", Qltb ent LBP_ENTROPY_MIN, "entropy=" ++ fmt 2 ent);
      ("screen_pattern", Qltb MOIRE_RATIO_MAX moire,
         "moiré=" ++ fmt 3 moire);
      ("flat_colour", Qltb cr_var SKIN_CR_VAR_MIN,
         "Cr_var=" ++ fmt 1 cr_var) ].

Definition check_liveness_single (V : Vision) (image_bytes : list byte)
    : LivenessResult :=
  match _decode V image_bytes with
  | None => mkLivenessResult false "Could not decode image" 0 0
  | Some img =>
      let gray := cvtColor_gray V img in
      let blur := _blur V gray in
      if Qltb blur BLUR_MIN_SINGLE then
        mkLivenessResult false
          ("Image too blurry (score=" ++ fmt 1 blur ++ ")") blur 0
      else
        match _find_face V gray with
        | None => mkLivenessResult false "No face detected" blur 0
        | Some _ => mkLivenessResult true "OK" blur 0
        end
  end.

(** One frame that survived the loop of [check_liveness_sequence]: the
    entries appended together to [imgs], [grays], [blurs], [face_rects]. *)
Record Kept : Type := mkKept {
  k_img : Image;
  k_gray : Gray;
  k_blur : Q;
  k_rect : option Rect
}.

(** The frame loop: undecodable and blurry frames are skipped. *)
Fixpoint triage (V : Vision) (frames_bytes : list (list byte)) : list Kept :=
  match frames_bytes with
  | [] => []
  | fb :: rest =>
      match _decode V fb with
      | None => triage V rest
      | Some img =>
          let gray := cvtColor_gray V img in
          let b := _blur V gray in
          if Qltb b BLUR_MIN_SEQ then triage V rest
          else mkKept img gray b (_find_face V gray) :: triage V rest
      end
  end.

Definition imgs (kept : list Kept) : list Image := map k_img kept.
Definition grays (kept : list Kept) : list Gray := map k_gray kept.
Definition blurs (kept : list Kept) : list Q := map k_blur kept.
Definition face_rects (kept : list Kept) : list (option Rect) :=
  map k_rect kept.

(** [[r for r in face_rects if r is not None]]. *)
Fixpoint valid_faces (rects : list (option Rect)) : list Rect :=
  match rects with
  | [] => []
  | Some r :: t => r :: valid_faces t
  | None :: t => valid_faces t
  end.

(** The signals of the reference frame: the pixel signals, then the
    depth reading when [check_depth] reports a positive range. *)
Definition spatial_signals (V : Vision) (img : Image) (gray : Gray)
    (rect : Rect) : list Signal :=
  let signals := _antispoof V img gray rect in
  let '(depth_passed, d_range, d_std) := check_depth V img rect in
  if Qltb 0 d_range then
    signals ++ [ ("flat_depth", negb depth_passed,
                  "range=" ++ fmt 1 d_range ++ " std=" ++ fmt 1 d_std) ]
  else signals.

(** The depth entry of [spatial_signals] taken alone. *)
Definition depth_reading (V : Vision) (img : Image) (rect : Rect)
    : list Signal :=
  let '(depth_passed, d_range, d_std) := check_depth V img rect in
  if Qltb 0 d_range then
    [ ("flat_depth", negb depth_passed,
       "range=" ++ fmt 1 d_range ++ " std=" ++ fmt 1 d_std) ]
  else [].

Definition fail_count (signals : list Signal) : nat :=
  List.length (filter (fun '(_, failed, _) => failed) signals).

Definition fail_reasons (signals : list Signal) : list string :=
  map (fun '(n, _, d) => n ++ "(" ++ d ++ ")")
      (filter (fun '(_, failed, _) => failed) signals).

(** [cv2.absdiff(a, b).mean()]; OpenCV rejects operands of different
    sizes. *)
Definition absdiff_mean (a b : Gray) : outcome Q :=
  if (nrows a =? nrows b)%Z && (ncols a =? ncols b)%Z then
    Returned (mean (map (fun '(p, q) => inject_Z (Z.abs (p - q)))
                        (combine (ravel a) (ravel b))))
  else Raised "cv2.error".

(** [[absdiff(grays[i-1], grays[i]).mean() for i in range(1, len(grays))]],
    with [prev] the frame before [rest]. *)
Fixpoint motions (prev : Gray) (rest : list Gray) : outcome (list Q) :=
  match rest with
  | [] => Returned []
  | g :: t =>
      match absdiff_mean prev g with
      | Raised e => Raised e
      | Returned m =>
          match motions g t with
          | Raised e => Raised e
          | Returned ms => Returned (m :: ms)
          end
      end
  end.

Definition pairwise_motions (grays : list Gray) : outcome (list Q) :=
  match grays with
  | [] => Returned []
  | g :: t => motions g t
  end.

(** Index of the sharpest surviving frame. *)
Definition best (kept : list Kept) : nat := argmax Qltb (blurs kept).

(** [face_rects[best] if face_rects[best] is not None else valid_faces[0]]. *)
Definition reference_rect (kb : Kept) (first_valid : Rect) : Rect :=
  match k_rect kb with
  | Some r => r
  | None => first_valid
  end.

(** The signals read on the reference frame [kb]. *)
Definition reference_signals (V : Vision) (kb : Kept) (first_valid : Rect)
    : list Signal :=
  spatial_signals V (k_img kb) (k_gray kb) (reference_rect kb first_valid).

Definition antispoof_verdict (signals : list Signal) (kept : list Kept)
    : LivenessResult :=
  mkLivenessResult false
    ("Anti-spoof failed: " ++ join ", " (fail_reasons signals))
    (mean (blurs kept)) 0.

(** The part of [check_liveness_sequence] under "Motion analysis". *)
Definition motion_analysis (kept : list Kept) : outcome LivenessResult :=
  match pairwise_motions (grays kept) with
  | Raised e => Raised e
  | Returned motions =>
      let avg_motion := mean motions in
      if Qltb avg_motion MOTION_AVG_MIN then
        Returned
          (mkLivenessResult false
             ("Insufficient motion (" ++ fmt 3 avg_motion
                ++ ") — possible photo replay")
             (mean (blurs kept)) avg_motion)
      else
        Returned
          (mkLivenessResult true "OK" (mean (blurs kept)) avg_motion)
  end.

(** Indexing the parallel lists at [best] is [nth_error]; Python would
    raise [IndexError] out of range. *)
Definition check_liveness_sequence (V : Vision)
    (frames_bytes : list (list byte)) : outcome LivenessResult :=
  if (List.length frames_bytes <? 2)%nat then
    Returned (mkLivenessResult false "Not enough frames" 0 0)
  else
    let kept := triage V frames_bytes in
    if (List.length kept <? 2)%nat then
      Returned (mkLivenessResult false "Not enough usable frames" 0 0)
    else
      match valid_faces (face_rects kept) with
      | [] =>
          Returned (mkLivenessResult false "No face detected in frames" 0 0)
      | first_valid :: _ =>
          match nth_error kept (best kept) with
          | None => Raised "IndexError"
          | Some kb =>
              let signals := reference_signals V kb first_valid in
              if (2 <=? fail_count signals)%nat then
                Returned (antispoof_verdict signals kept)
              else motion_analysis kept
          end
      end.

(** ** Vocabulary of the properties *)

(** The verdict is the anti-spoof rejection that enumerates the failing
    readings of [signals]. *)
Definition antispoof_rejection (signals : list Signal)
    (res : outcome LivenessResult) : Prop :=
  exists r, res = Returned r /\ passed r = false
    /\ reason r = "Anti-spoof failed: " ++ join ", " (fail_reasons signals).

(** [needle in s]. *)
Definition mentions (needle s : string) : Prop :=
  exists pre post, s = pre ++ needle ++ post.



Definition lower_char (c : ascii) : ascii :=
  let n := nat_of_ascii c in
  if (65 <=? n)%nat && (n <=? 90)%nat then ascii_of_nat (n + 32) else c.

(** [s.lower()] on ASCII text. *)
Fixpoint lower (s : string) : string :=
  match s with
  | EmptyString => EmptyString
  | String a t => String (lower_char a) (lower t)
  end.

Definition decodable (V : Vision) (fb : list byte) : bool :=
  match _decode V fb with
  | Some _ => true
  | None => false
  end.

(** [cv2.imdecode] asserts that the buffer it is given is not empty: on
    the empty one it raises [cv2.error], and [_decode] returns neither an
    image nor [None].  The properties that turn on what decodes are stated for
    frames that carry bytes, where [imdecode V] is the decoder's answer. *)
Definition carries_bytes (fb : list byte) : Prop := fb <> [].

(** ** The fusion rule in the words of the specification

    Written on the readings themselves, without [fail_count] and
    [fail_reasons]: how many readings report failure, and the text
    [name(value)] of each failing reading, in the order of the readings. *)
Fixpoint failures (signals : list Signal) : nat :=
  match signals with
  | [] => 0
  | (_, true, _) :: t => S (failures t)
  | (_, false, _) :: t => failures t
  end.

Fixpoint failing_entries (signals : list Signal) : list string :=
  match signals with
  | [] => []
  | (n, true, d) :: t => (n ++ "(" ++ d ++ ")") :: failing_entries t
  | (_, false, _) :: t => failing_entries t
  end.

(** A verdict that is an anti-spoof rejection, recognised by what it
    says. *)
Definition spatial_rejection (res : outcome LivenessResult) : Prop :=
  exists r, res = Returned r /\ passed r = false
    /\ String.prefix "Anti-spoof failed: " (reason r) = true.

End Liveness.

(* ================================================================== *)
(** * Synthetic providers

  A toy frame format and toy providers, used to run the engine on
  concrete inputs.  A frame is [magic :: scale :: payload]: it decodes to
  a square image of side [64 * scale] whose column [j] carries the
  payload byte [j] in its three channels.  The providers read their
  answers from the first row: sharpness in column 0, face side in
  column 1 (0 for no face), entropy in tenths in column 2, moire ratio in
  hundredths in column 3, chroma variance in column 4 and the slope of
  the depth surface in column 5. *)

Module Synthetic.
Import Np Providers Liveness.

Definition MAGIC : byte := x49.

Definition byteZ (b : byte) : Z := Z.of_N (Byte.to_N b).

Definition picture (scale : byte) (payload : list byte) : Image :=
  let side := (64 * byteZ scale)%Z in
  mk_ndarray side side
    (fun _ j => let v := byteZ (nth (Z.to_nat j) payload x00) in (v, v, v)).

Definition decode (fb : list byte) : option Image :=
  match fb with
  | magic :: scale :: payload =>
      if Byte.eqb magic MAGIC then Some (picture scale payload) else None
  | _ => None
  end.

Definition green (p : Pixel) : Z := let '(_, g, _) := p in g.

Definition faces (gray : Gray) : list Rect :=
  let s := item gray 0 1 in
  if (s =? 0)%Z then [] else [(0, 0, s, s)%Z].

Definition surface (img : Image) : DepthMap :=
  mk_ndarray 256 256 (fun i _ => inject_Z (i * green (item img 0 5))).

Definition spread (roi : DepthMap) : Q :=
  (qmax (ravel roi) - qmin (ravel roi)) / 4.

Definition vision (depth : bool) : Vision :=
  {| imdecode := decode;
     bgr2gray := green;
     laplacian_var := fun gray => inject_Z (item gray 0 0);
     detectMultiScale := faces;
     lbp_entropy := fun gf => Qmake (item gf 0 2) 10;
     moire_ratio := fun gf => Qmake (item gf 0 3) 100;
     cr_variance := fun roi => inject_Z (green (item roi 0 4));
     midas := if depth then Some surface else None;
     np_std := spread |}.

(** What the frame loop keeps of the frame [magic :: scale :: payload]. *)
Definition shot (depth : bool) (scale : byte) (payload : list byte) : Kept :=
  let img := picture scale payload in
  let gray := cvtColor_gray (vision depth) img in
  mkKept img gray (_blur (vision depth) gray)
         (_find_face (vision depth) gray).

(** A sharp 256 x 256 picture with an 80-pixel face, entropy 6.0, moire
    ratio 0.50, chroma variance 20 and a sloped depth surface; [tail]
    fills the columns from 6 on. *)
Definition live (tail : list byte) : list byte :=
  [x28; x50; x3c; x32; x14; x01] ++ tail.

(** The same scene re-photographed from a screen: low entropy (3.2), a
    moire ratio of 0.98 and flat chroma (5). *)
Definition screen : list byte := [x28; x50; x20; x62; x05; x01].

(** Only the texture signal is out of bounds. *)
Definition smooth : list byte := [x28; x50; x20; x32; x14; x01].

(** A sharper picture (sharpness 50) in which no face is found. *)
Definition faceless : list byte := [x32; x00; x3c; x32; x14; x01].

(** The screen scene with a face only 20 pixels wide. *)
Definition tiny_face : list byte := [x28; x14; x20; x62; x05; x01].

(** A 64-pixel face, for a 4096 x 4096 picture. *)
Definition distant : list byte := [x28; x40; x3c; x32; x14; x01].

(** The live scene in front of a perfectly flat depth surface. *)
Definition flat : list byte := [x28; x50; x3c; x32; x14; x00].

Definition live_frame (tail : list byte) : list byte :=
  MAGIC :: x04 :: live tail.
Definition screen_frame : list byte := MAGIC :: x04 :: screen.
Definition smooth_frame : list byte := MAGIC :: x04 :: smooth.
Definition faceless_frame : list byte := MAGIC :: x04 :: faceless.
Definition tiny_face_frame : list byte := MAGIC :: x04 :: tiny_face.
Definition wide_frame : list byte := MAGIC :: x40 :: distant.
Definition wide_picture : Image := picture x40 distant.

(** Bytes that are no image. *)
Definition garbage : list byte := [x00; x01; x02].

End Synthetic.

(* ================================================================== *)
(** * face_recognition.py: model loading and embedding extraction *)

Module Embedding.
Import Np Providers FaceRecognition Liveness.
Local Open Scope R_scope.

(** YuNet and SFace once created: [detector.detect(img)[1]] as the rows of
    the detections (the last cell of a row is its confidence),
    [recognizer.alignCrop] and [recognizer.feature(...).flatten()]. *)
Record FaceModels : Type := {
  detect : Image -> list (list R);
  alignCrop : Image -> list R -> Image;
  feature : Image -> list R
}.

(** What [_get_models] sees during one call: the module globals
    [_detector], [_recognizer], whether the two model files exist, and the
    models [cv2] would create from them. *)
Record FaceEnv : Type := {
  loaded : option FaceModels;
  YUNET_exists : bool;
  SFACE_exists : bool;
  created : FaceModels
}.

Definition _get_models (E : FaceEnv) : outcome FaceModels :=
  match loaded E with
  | Some m => Returned m
  | None =>
      if negb (YUNET_exists E) then Raised "RuntimeError"
      else if negb (SFACE_exists E) then Raised "RuntimeError"
      else Returned (created E)
  end.

Definition Rltb (x y : R) : bool := if Rlt_dec x y then true else false.

(** The aligned crop of the detection of highest confidence, or [None]. *)
Definition _detect_and_align (m : FaceModels) (img : Image) : option Image :=
  match detect m img with
  | [] => None
  | (f0 :: _) as faces =>
      let face := nth (argmax Rltb (map (fun row => last row 0) faces))
                      faces f0 in
      Some (alignCrop m img face)
  end.

Definition extract_embedding (V : Vision) (E : FaceEnv)
    (image_bytes : list byte) : option (list R) :=
  match _get_models E with
  | Raised _ => None
  | Returned m =>
      match imdecode V image_bytes with
      | None => None
      | Some img =>
          match _detect_and_align m img with
          | None => None
          | Some aligned =>
              let embedding := feature m aligned in
              let norm := np_linalg_norm embedding in
              Some (if Rlt_dec 0 norm
                    then map (fun x => x / norm) embedding
                    else embedding)
          end
      end
  end.

End Embedding.

(* ================================================================== *)
(** * api/v1/endpoints/auth.py: registration and face login

    The handlers are functions of the request and of the rows they read;
    they return the rows they write and the reply.  Timestamps are left
    out. *)

Module Auth.
Import Config FaceRecognition Np Providers Liveness Embedding.
Local Open Scope string_scope.

Record User : Type := mkUser {
  id : Z;
  name : string;
  phone_number : string;
  face_embedding : option (list R);
  face_enrolled : bool;
  is_active : bool
}.

Record AuthAttempt : Type := mkAuthAttempt {
  user_id : option Z;
  success : bool;
  similarity_score : option string;
  liveness_passed : bool;
  ip_address : option string
}.

Record UserOut : Type := mkUserOut {
  out_id : Z;
  out_name : string;
  out_phone_number : string;
  out_face_enrolled : bool
}.

Record FaceVerifyResponse : Type := mkFaceVerifyResponse {
  access_token : string;
  refresh_token : string;
  token_type : string;
  similarity : R;
  response_liveness_passed : bool;
  user : UserOut
}.

Inductive reply : Type :=
| Response (status_code : Z) (body : FaceVerifyResponse)
| HTTPException (status_code : Z) (detail : string).

(** What the handlers take from the platform: the two token mints of
    [security.py], [round(x, 4)] and [str] on floats, the key the database
    gives a new row, and [str.strip] and [len] on text. *)
Record Platform : Type := {
  create_access_token : Z -> string;
  create_refresh_token : Z -> string;
  round4 : R -> R;
  str_float : R -> string;
  next_id : list User -> Z;
  strip : string -> string;
  len : string -> nat
}.

Definition MAX_UPLOAD_MB : Z := 10.

Definition model_validate (u : User) : UserOut :=
  mkUserOut (id u) (name u) (phone_number u) (face_enrolled u).

(** [db.query(User).filter(User.name == name).first()]. *)
Definition first_named (users : list User) (n : string) : option User :=
  find (fun u => String.eqb (name u) n) users.

(** The row [_log_attempt] adds. *)
Definition _log_attempt (P : Platform) (uid : option Z) (ok : bool)
    (sim : option R) (live : bool) (client_host : option string)
    : AuthAttempt :=
  mkAuthAttempt uid ok
    (match sim with
     | Some s => Some (str_float P (round4 P s))
     | None => None
     end)
    live client_host.

(** [register_face]: the users table afterwards, and the reply. *)
Definition register_face (V : Vision) (E : FaceEnv) (P : Platform)
    (users : list User) (form_name form_phone : string)
    (face_image : list byte) : list User * reply :=
  let name := strip P form_name in
  let phone_number := strip P form_phone in
  if (len P name <? 2)%nat || (100 <? len P name)%nat then
    (users, HTTPException 422 "Name must be 2–100 characters")
  else if (len P phone_number <? 6)%nat then
    (users, HTTPException 422 "Invalid phone number")
  else
    match first_named users name with
    | Some _ => (users, HTTPException 409 "Name already taken")
    | None =>
        let img_bytes := face_image in
        if (MAX_UPLOAD_MB * 1024 * 1024 <? Z.of_nat (length img_bytes))%Z then
          (users, HTTPException 413 "Image too large")
        else
          let live := check_liveness_single V img_bytes in
          if negb (passed live) then
            (users, HTTPException 422 ("Liveness failed: " ++ reason live))
          else
            match extract_embedding V E img_bytes with
            | None => (users, HTTPException 422 "No face detected in image")
            | Some embedding =>
                let user := mkUser (next_id P users) name phone_number
                                   (Some embedding) true true in
                ((users ++ [user])%list,
                 Response 201
                   (mkFaceVerifyResponse
                      (create_access_token P (id user))
                      (create_refresh_token P (id user))
                      "bearer" 1%R true (model_validate user)))
            end
    end.

(** What one [login_face] request writes: the attempts it logs and, when
    it gets that far, the new [user.face_embedding]. *)
Record Writes : Type := mkWrites {
  logged : list AuthAttempt;
  embedding_written : option (list float64)
}.

(** [login_face]: what it writes, and the reply or the exception that
    escapes the handler. *)
Definition login_face (cfg : Settings) (V : Vision) (E : FaceEnv)
    (P : Platform) (users : list User) (client_host : option string)
    (form_name : string) (face_frames : list (list byte))
    : Writes * outcome reply :=
  let denied :=
    (mkWrites [_log_attempt P None false None false client_host] None,
     Returned (HTTPException 401 "Invalid credentials")) in
  match first_named users form_name with
  | None => denied
  | Some user =>
      match face_embedding user with
      | None => denied
      | Some stored =>
          if negb (face_enrolled user) then denied
          else
            let frames_bytes := face_frames in
            match check_liveness_sequence V frames_bytes with
            | Raised e => (mkWrites [] None, Raised e)
            | Returned live_result =>
                if negb (passed live_result) then
                  (mkWrites [_log_attempt P (Some (id user)) false None false
                               client_host] None,
                   Returned (HTTPException 401
                               ("Liveness failed: " ++ reason live_result)))
                else
                  match nth_error frames_bytes
                          (Nat.div (length frames_bytes) 2) with
                  | None => (mkWrites [] None, Raised "IndexError")
                  | Some mid_frame =>
                      match extract_embedding V E mid_frame with
                      | None =>
                          (mkWrites [_log_attempt P (Some (id user)) false
                                       None true client_host] None,
                           Returned (HTTPException 422
                                       "Could not detect face in frames"))
                      | Some new_embedding =>
                          match verify_face cfg new_embedding stored with
                          | None => (mkWrites [] None, Raised "ValueError")
                          | Some (is_match, sim) =>
                              let log :=
                                [_log_attempt P (Some (id user)) is_match
                                   (Some sim) true client_host] in
                              if negb is_match then
                                (mkWrites log None,
                                 Returned (HTTPException 401
                                             "Face does not match"))
                              else
                                match adaptive_update cfg stored
                                        new_embedding None with
                                | None =>
                                    (mkWrites log None, Raised "ValueError")
                                | Some updated =>
                                    (mkWrites log (Some updated),
                                     Returned
                                       (Response 200
                                          (mkFaceVerifyResponse
                                             (create_access_token P (id user))
                                             (create_refresh_token P (id user))
                                             "bearer" (round4 P sim) true
                                             (model_validate user))))
                                end
                          end
                      end
                  end
            end
      end
  end.

End Auth.

(* ================================================================== *)
(** * Vocabulary of the further properties *)

Module Readings.
Import Np Providers Liveness.
Local Open Scope Q_scope.

(** The area [_find_face] compares, in [int32]. *)
Definition rect_area (r : Rect) : Z := let '(x, y, w, h) := r in i32 (w * h).

(** A frame the loop of [check_liveness_sequence] keeps. *)
Definition usable (V : Vision) (fb : list byte) : bool :=
  match _decode V fb with
  | None => false
  | Some img => negb (Qltb (_blur V (cvtColor_gray V img)) BLUR_MIN_SEQ)
  end.

Definition same_shape {A B} (a : ndarray A) (b : ndarray B) : Prop :=
  nrows a = nrows b /\ ncols a = ncols b.

Definition signal_name (s : Signal) : string := let '(n, _, _) := s in n.

End Readings.

(** Face models for the synthetic frames: a detection of confidence 0.9
    when the picture carries a face, and the feature vector (3, 4). *)
Module SyntheticFaces.
Import Np Providers Embedding Synthetic.
Local Open Scope R_scope.

Definition models : FaceModels :=
  {| detect := fun img =>
       if (green (item img 0 1) =? 0)%Z then [] else [[0; 0; 9 / 10]];
     alignCrop := fun img _ => img;
     feature := fun _ => [3; 4] |}.

Definition env : FaceEnv :=
  {| loaded := None; YUNET_exists := true; SFACE_exists := true;
     created := models |}.

Definition missing : FaceEnv :=
  {| loaded := None; YUNET_exists := true; SFACE_exists := false;
     created := models |}.

Definition platform : Auth.Platform :=
  {| Auth.create_access_token := fun _ => "access"%string;
     Auth.create_refresh_token := fun _ => "refresh"%string;
     Auth.round4 := fun x => x;
     Auth.str_float := fun _ => "0.0"%string;
     Auth.next_id := fun users => Z.of_nat (S (length users));
     Auth.strip := fun s => s;
     Auth.len := String.length |}.

(** The live scene too blurred to be kept (sharpness 5), and the live
    scene as a 64 x 64 picture. *)
Definition blurry_frame : list byte :=
  MAGIC :: x04 :: [x05; x50; x3c; x32; x14; x01].
Definition small_frame : list byte := MAGIC :: x01 :: live [].

Definition alice : Auth.User :=
  Auth.mkUser 1 "alice" "5550100" (Some [3 / 5; 4 / 5]) true true.

End SyntheticFaces.

(* ================================================================== *)
(** * Properties of the identity matcher *)

Section IdentityMatcher.
Import Config FaceRecognition.
Local Open Scope R_scope.

Lemma sumsq_nonneg (v : list R) : 0 <= sumsq v.
Proof.
  unfold sumsq. induction v as [|a v IH]; simpl; [lra|].
  pose proof (Rle_0_sqr a) as Ha. unfold Rsqr in Ha. lra.
Qed.

Lemma unit_sumsq (v : list R) : np_linalg_norm v = 1 -> sumsq v = 1.
Proof.
  unfold np_linalg_norm. intros H.
  rewrite <- (sqrt_sqrt (sumsq v) (sumsq_nonneg v)), H. lra.
Qed.

Lemma sumsq_unit (v : list R) : sumsq v = 1 -> np_linalg_norm v = 1.
Proof. unfold np_linalg_norm. intros ->. apply sqrt_1. Qed.

Lemma np_dot_same_length (u v : list R) :
  length u = length v -> np_dot u v = Some (dot_aux u v).
Proof. unfold np_dot. intros ->. now rewrite Nat.eqb_refl. Qed.

Lemma dot_zeros_l (n : nat) (v : list R) : dot_aux (repeat 0 n) v = 0.
Proof.
  revert v. induction n as [|n IH]; intros [|b v]; simpl; try lra.
  rewrite IH. lra.
Qed.

Lemma dot_axis (n : nat) (x y : R) (w : list R) :
  dot_aux (axis n x) (y :: w) = x * y.
Proof. unfold axis. simpl. rewrite dot_zeros_l. lra. Qed.

Lemma axis_length (n : nat) (x : R) : length (axis n x) = S n.
Proof. unfold axis. simpl. now rewrite repeat_length. Qed.

Lemma axis_unit (n : nat) : np_linalg_norm (axis n 1) = 1.
Proof.
  apply sumsq_unit. unfold sumsq, axis. simpl. rewrite dot_zeros_l. lra.
Qed.

Lemma axis_neg_unit (n : nat) : np_linalg_norm (axis n (-1)) = 1.
Proof.
  apply sumsq_unit. unfold sumsq, axis. simpl. rewrite dot_zeros_l. lra.
Qed.

(** The squared norm of a blend [a u + b v]. *)
Lemma sumsq_blend (a b : R) (u v : list R) :
  length u = length v ->
  sumsq (add_aux (scale a u) (scale b v))
  = a * a * sumsq u + b * b * sumsq v + 2 * a * b * dot_aux u v.
Proof.
  unfold sumsq, scale. revert v.
  induction u as [|x u IH]; intros [|y v] Hlen; simpl in *;
    try discriminate; [lra|].
  rewrite IH by congruence. ring.
Qed.

Lemma sumsq_sum (u v : list R) :
  length u = length v ->
  sumsq (add_aux u v) = sumsq u + sumsq v + 2 * dot_aux u v.
Proof.
  unfold sumsq. revert v.
  induction u as [|x u IH]; intros [|y v] Hlen; simpl in *;
    try discriminate; [lra|].
  rewrite IH by congruence. ring.
Qed.

(** A sum of two vectors of zero norm: the second is the opposite of the
    first. *)
Lemma sumsq_sum_zero (u v : list R) :
  length u = length v -> sumsq (add_aux u v) = 0 -> v = map Ropp u.
Proof.
  unfold sumsq. revert v.
  induction u as [|x u IH]; intros [|y v] Hlen; simpl in *;
    try discriminate; [reflexivity|].
  intros H0.
  pose proof (sumsq_nonneg (add_aux u v)) as Hrest. unfold sumsq in Hrest.
  pose proof (Rle_0_sqr (x + y)) as Hsq. unfold Rsqr in Hsq.
  assert (Hxy : (x + y) * (x + y) = 0) by lra.
  assert (Hr : dot_aux (add_aux u v) (add_aux u v) = 0) by lra.
  apply Rmult_integral in Hxy.
  rewrite (IH v) by (congruence || assumption).
  f_equal. lra.
Qed.

Lemma add_aux_length (u v : list R) :
  length u = length v -> length (add_aux u v) = length u.
Proof.
  revert v. induction u as [|x u IH]; intros [|y v] Hlen; simpl in *;
    try discriminate; [reflexivity|].
  f_equal. apply IH. congruence.
Qed.

Lemma np_add_same_length (u v : list R) :
  length u = length v -> np_add u v = Some (add_aux u v).
Proof. unfold np_add. intros ->. now rewrite Nat.eqb_refl. Qed.

Lemma sumsq_div (n : R) (v : list R) :
  n <> 0 -> sumsq (map (fun x => x / n) v) = sumsq v / (n * n).
Proof.
  intros Hn. unfold sumsq.
  induction v as [|x v IH]; simpl; [field; assumption|].
  rewrite IH. field. assumption.
Qed.

Lemma np_divide_finite (n : R) (v : list R) :
  n <> 0 ->
  map (fun x => np_divide x n) v = map Finite (map (fun x => x / n) v).
Proof.
  intros Hn. rewrite map_map. apply map_ext. intros x.
  unfold np_divide. destruct (Req_dec_T n 0); [contradiction|reflexivity].
Qed.

Lemma np_divide_zero_zero : np_divide 0 0 = NaN.
Proof.
  unfold np_divide.
  destruct (Req_dec_T 0 0) as [_|H]; [reflexivity|now elim H].
Qed.

(** Squared norm of the blend of two unit vectors. *)
Lemma blend_unit_sumsq (alpha : R) (e e' : list R) :
  length e = length e' -> sumsq e = 1 -> sumsq e' = 1 ->
  sumsq (add_aux (scale (1 - alpha) e) (scale alpha e'))
  = (1 - 2 * alpha) * (1 - 2 * alpha)
    + alpha * (1 - alpha) * sumsq (add_aux e e').
Proof.
  intros Hlen He He'.
  rewrite sumsq_blend, sumsq_sum, He, He' by assumption. ring.
Qed.

Lemma blend_nonzero (alpha : R) (e e' : list R) :
  length e = length e' -> sumsq e = 1 -> sumsq e' = 1 ->
  0 < alpha <= 1 ->
  ~ (alpha = 1 / 2 /\ e' = map Ropp e) ->
  0 < sumsq (add_aux (scale (1 - alpha) e) (scale alpha e')).
Proof.
  intros Hlen He He' Ha Hne.
  rewrite blend_unit_sumsq by assumption.
  pose proof (sumsq_nonneg (add_aux e e')) as Hs.
  pose proof (Rle_0_sqr (1 - 2 * alpha)) as Hq. unfold Rsqr in Hq.
  assert (Hp : 0 <= alpha * (1 - alpha) * sumsq (add_aux e e')).
  { apply Rmult_le_pos; [nra|assumption]. }
  destruct (Req_dec_T alpha (1 / 2)) as [Hhalf|Hhalf].
  - destruct (Req_dec_T (sumsq (add_aux e e')) 0) as [Hz|Hz].
    + exfalso. apply Hne. split; [assumption|].
      now apply sumsq_sum_zero.
    + subst alpha. nra.
  - assert (0 < (1 - 2 * alpha) * (1 - 2 * alpha)) by nra. lra.
Qed.

End IdentityMatcher.

Section IdentityMatcherClaims.
Import Config FaceRecognition.
Local Open Scope R_scope.

Lemma scale_length (c : R) (v : list R) : length (scale c v) = length v.
Proof. unfold scale. apply length_map. Qed.

(** Comparing a unit vector with itself under any settings: the similarity
    is 1, and the match flag says whether the threshold is at most 1. *)
Lemma self_similarity_any (cfg : Settings) (a : list R) :
  np_linalg_norm a = 1 ->
  exists m, verify_face cfg a a = Some (m, 1)
            /\ (m = true <-> SIMILARITY_THRESHOLD cfg <= 1).
Proof.
  intros Ha. unfold verify_face.
  rewrite np_dot_same_length by reflexivity.
  change (dot_aux a a) with (sumsq a). rewrite (unit_sumsq a Ha).
  destruct (Rle_dec (SIMILARITY_THRESHOLD cfg) 1) as [Hle|Hgt].
  - exists true. tauto.
  - exists false. split; [reflexivity|]. split; [discriminate|tauto].
Qed.

(** C8. For every unit-normalised vector [a], [verify_face(a, a)] under
    the default settings returns similarity 1 and [is_match = True]. *)
Theorem verify_face_self (a : list R) :
  np_linalg_norm a = 1 -> verify_face settings a a = Some (true, 1).
Proof.
  intros Ha.
  destruct (self_similarity_any settings a Ha) as [m [Hm Hiff]].
  rewrite Hm. destruct Hiff as [_ Hback].
  rewrite Hback; [reflexivity|]. simpl. lra.
Qed.

Lemma verify_face_self_witness :
  np_linalg_norm (axis 127 1) = 1
  /\ verify_face settings (axis 127 1) (axis 127 1) = Some (true, 1).
Proof.
  split; [apply axis_unit|].
  apply (verify_face_self (axis 127 1)). apply axis_unit.
Defined.

(** C6. Whenever the dot product of the two embeddings is exactly the
    similarity threshold of the settings (0.593 by default),
    [verify_face] reports a match: the comparison is [>=]. *)
Theorem verify_face_threshold_inclusive
    (cfg : Settings) (va vb : list R) :
  np_dot va vb = Some (SIMILARITY_THRESHOLD cfg) ->
  verify_face cfg va vb = Some (true, SIMILARITY_THRESHOLD cfg).
Proof.
  intros Hdot. unfold verify_face. rewrite Hdot.
  destruct (Rle_dec (SIMILARITY_THRESHOLD cfg) (SIMILARITY_THRESHOLD cfg))
    as [_|Hn]; [reflexivity|].
  exfalso. apply Hn. apply Rle_refl.
Qed.

Lemma at_threshold_dot :
  np_dot (axis 127 1) at_threshold = Some (SIMILARITY_THRESHOLD settings).
Proof.
  rewrite np_dot_same_length.
  - unfold at_threshold. rewrite dot_axis. simpl. f_equal. lra.
  - unfold at_threshold, axis. simpl. rewrite ?repeat_length. reflexivity.
Qed.

Lemma verify_face_threshold_inclusive_witness :
  verify_face settings (axis 127 1) at_threshold = Some (true, 593 / 1000).
Proof.
  apply (verify_face_threshold_inclusive settings (axis 127 1) at_threshold).
  apply at_threshold_dot.
Defined.

(** C1, as the code has it. For unit-normalised 128-dimension embeddings
    [e], [e'] and [alpha] in (0, 1], [adaptive_update] returns a vector
    of Euclidean norm 1, provided the blend is not the null vector, that
    is, unless [alpha = 1/2] and [e' = -e]. *)
Theorem adaptive_update_unit_norm
    (cfg : Settings) (e e' : list R) (alpha : R) :
  length e = 128%nat -> length e' = 128%nat ->
  np_linalg_norm e = 1 -> np_linalg_norm e' = 1 ->
  0 < alpha <= 1 ->
  ~ (alpha = 1 / 2 /\ e' = map Ropp e) ->
  unit_norm (adaptive_update cfg e e' (Some alpha)).
Proof.
  intros Le Le' Ne Ne' Ha Hne.
  assert (Hlen : length e = length e') by congruence.
  pose proof (blend_nonzero alpha e e' Hlen (unit_sumsq e Ne)
                (unit_sumsq e' Ne') Ha Hne) as Hpos.
  unfold adaptive_update, unit_norm.
  rewrite np_add_same_length by (rewrite !scale_length; exact Hlen).
  set (updated := add_aux (scale (1 - alpha) e) (scale alpha e')) in *.
  assert (Hn : np_linalg_norm updated <> 0).
  { unfold np_linalg_norm. pose proof (sqrt_lt_R0 _ Hpos). lra. }
  exists (map (fun x => x / np_linalg_norm updated) updated). split.
  - cbv zeta. now rewrite np_divide_finite.
  - apply sumsq_unit. rewrite sumsq_div by assumption.
    unfold np_linalg_norm. rewrite sqrt_sqrt by lra. field. lra.
Qed.

Lemma orthogonal_unit : np_linalg_norm (0 :: axis 126 1) = 1.
Proof.
  apply sumsq_unit.
  change (sumsq (0 :: axis 126 1)) with (0 * 0 + sumsq (axis 126 1)).
  rewrite (unit_sumsq _ (axis_unit 126)). lra.
Qed.

Lemma adaptive_update_unit_norm_witness :
  unit_norm (adaptive_update settings (axis 127 1) (0 :: axis 126 1)
               (Some (1 / 20))).
Proof.
  apply (adaptive_update_unit_norm settings (axis 127 1) (0 :: axis 126 1)).
  - apply axis_length.
  - simpl. rewrite ?repeat_length. reflexivity.
  - apply axis_unit.
  - apply orthogonal_unit.
  - lra.
  - intros [H _]. lra.
Defined.

Lemma blend_axis (n : nat) (a b x y : R) :
  add_aux (scale a (axis n x)) (scale b (axis n y))
  = (a * x + b * y) :: map (fun _ => a * 0 + b * 0) (repeat 0 n).
Proof.
  unfold axis, scale. simpl. f_equal.
  induction n as [|n IH]; simpl; [reflexivity|]. now rewrite IH.
Qed.

(** The blend of two opposite unit vectors at [alpha = 1/2] is the null
    vector, its norm is 0, and the in-place division fills the result
    with [nan]. *)
Lemma adaptive_update_antipodal :
  adaptive_update settings (axis 127 1) (axis 127 (-1)) (Some (1 / 2))
  = Some (repeat NaN 128).
Proof.
  unfold adaptive_update.
  rewrite np_add_same_length by (now rewrite !scale_length, !axis_length).
  rewrite blend_axis.
  replace ((1 - 1 / 2) * 1 + 1 / 2 * -1) with 0 by lra.
  replace (map (fun _ : R => (1 - 1 / 2) * 0 + 1 / 2 * 0) (repeat 0 127))
    with (repeat 0 127).
  2:{ rewrite map_repeat. f_equal. lra. }
  change (0 :: repeat 0 127) with (repeat 0 128).
  cbv zeta.
  assert (Hnorm : np_linalg_norm (repeat 0 128) = 0).
  { unfold np_linalg_norm, sumsq. rewrite dot_zeros_l. apply sqrt_0. }
  rewrite Hnorm, map_repeat, np_divide_zero_zero. reflexivity.
Qed.

(** C1 as stated fails: two opposite unit vectors blended half and half
    do not come back with norm 1. *)
Lemma adaptive_update_antipodal_not_unit :
  length (axis 127 1) = 128%nat /\ length (axis 127 (-1)) = 128%nat
  /\ np_linalg_norm (axis 127 1) = 1 /\ np_linalg_norm (axis 127 (-1)) = 1
  /\ 0 < 1 / 2 <= 1
  /\ ~ unit_norm
         (adaptive_update settings (axis 127 1) (axis 127 (-1))
            (Some (1 / 2))).
Proof.
  repeat split; try apply axis_length; try apply axis_unit;
    try apply axis_neg_unit; try lra.
  rewrite adaptive_update_antipodal. intros [w [Hw _]].
  injection Hw as Hw. destruct w; discriminate Hw.
Qed.

End IdentityMatcherClaims.

(* ================================================================== *)
(** * Properties of the liveness engine *)

Section FrameTriage.
Import Np Providers DepthCheck Liveness.
Variable V : Vision.

Lemma triage_length (fs : list (list byte)) :
  (length (triage V fs) <= length fs)%nat.
Proof.
  induction fs as [|fb fs IH]; simpl; [lia|].
  destruct (_decode V fb); [|lia].
  destruct (Qltb _ _); simpl; lia.
Qed.

(** Frames that do not decode leave no trace in the surviving lists. *)
Lemma triage_decodable (fs : list (list byte)) :
  triage V (filter (decodable V) fs) = triage V fs.
Proof.
  induction fs as [|fb fs IH]; simpl; [reflexivity|].
  unfold decodable at 1.
  destruct (_decode V fb) eqn:E; simpl; [|exact IH].
  rewrite E, IH. reflexivity.
Qed.

Lemma triage_le_decodable (fs : list (list byte)) :
  (length (triage V fs) <= length (filter (decodable V) fs))%nat.
Proof. rewrite <- triage_decodable. apply triage_length. Qed.

Lemma filter_length_le {A} (f : A -> bool) (l : list A) :
  (length (filter f l) <= length l)%nat.
Proof.
  induction l as [|a l IH]; simpl; [lia|]. destruct (f a); simpl; lia.
Qed.

(** The decision once two frames survived and a face was located. *)
Lemma sequence_decision (fs : list (list byte)) (v0 : Rect)
    (vs : list Rect) (kb : Kept) :
  (2 <= length (triage V fs))%nat ->
  valid_faces (face_rects (triage V fs)) = v0 :: vs ->
  nth_error (triage V fs) (best (triage V fs)) = Some kb ->
  check_liveness_sequence V fs
  = if (2 <=? fail_count (reference_signals V kb v0))%nat
    then Returned (antispoof_verdict (reference_signals V kb v0)
                     (triage V fs))
    else motion_analysis (triage V fs).
Proof.
  intros Hlen Hfaces Hbest. unfold check_liveness_sequence.
  pose proof (triage_length fs) as Hle.
  destruct (Nat.ltb_spec (length fs) 2) as [Hlt|_]; [lia|].
  cbv zeta.
  destruct (Nat.ltb_spec (length (triage V fs)) 2) as [Hlt|_]; [lia|].
  rewrite Hfaces, Hbest. reflexivity.
Qed.

Lemma motion_not_antispoof (signals : list Signal) (kept : list Kept) :
  ~ antispoof_rejection signals (motion_analysis kept).
Proof.
  unfold motion_analysis, antispoof_rejection.
  destruct (pairwise_motions (grays kept)) as [ms|e].
  - cbv zeta. destruct (Qltb (mean ms) MOTION_AVG_MIN);
      intros [r [Hr [Hp Hreason]]]; injection Hr as <-; simpl in *;
      discriminate.
  - intros [r [Hr _]]. discriminate.
Qed.

End FrameTriage.

Section SequenceClaims.
Import Np Providers DepthCheck Liveness Synthetic.
Local Open Scope string_scope.

(** C5. A list of fewer than 2 frames is rejected with reason
    "Not enough frames" (the specification quotes it in lower case),
    whatever the frames contain and whatever the providers would answer:
    no frame is decoded or analysed. *)
Theorem too_few_frames (V : Vision) (fs : list (list byte)) :
  (length fs < 2)%nat ->
  let verdict := mkLivenessResult false "Not enough frames" 0 0 in
  check_liveness_sequence V fs = Returned verdict
  /\ lower (reason verdict) = "not enough frames".
Proof.
  intros Hlen verdict. split; [|reflexivity].
  unfold check_liveness_sequence.
  destruct (Nat.ltb_spec (length fs) 2) as [_|Hge]; [reflexivity|lia].
Qed.

Lemma too_few_frames_witness :
  check_liveness_sequence (vision true) [live_frame []]
  = Returned (mkLivenessResult false "Not enough frames" 0 0).
Proof.
  apply (too_few_frames (vision true) [live_frame []]). simpl. lia.
Defined.

(** C4, as the code has it, for frames that carry bytes. Single-frame
    liveness answers bytes that do not decode with the failing verdict
    "Could not decode image".  Sequence liveness drops such frames without
    a word: with at least 2 frames of which fewer than 2 decode the verdict
    is "Not enough usable frames", and otherwise it is the verdict of the
    decodable frames alone.  Neither entry point raises because of them.
    (An empty buffer is another matter: [cv2.imdecode] raises on it, and
    nothing is said about it here.) *)
Theorem undecodable_frames (V : Vision) :
  (forall b, carries_bytes b -> _decode V b = None ->
     check_liveness_single V b
     = mkLivenessResult false "Could not decode image" 0 0)
  /\ (forall fs, Forall carries_bytes fs -> (2 <= length fs)%nat ->
        (length (filter (decodable V) fs) < 2)%nat ->
        check_liveness_sequence V fs
        = Returned (mkLivenessResult false "Not enough usable frames" 0 0))
  /\ (forall fs, Forall carries_bytes fs ->
        (2 <= length (filter (decodable V) fs))%nat ->
        check_liveness_sequence V fs
        = check_liveness_sequence V (filter (decodable V) fs)).
Proof.
  split; [|split].
  - intros b _ Hb. unfold check_liveness_single. now rewrite Hb.
  - intros fs _ Hlen Hdec. unfold check_liveness_sequence.
    pose proof (triage_le_decodable V fs) as Hle.
    destruct (Nat.ltb_spec (length fs) 2) as [Hlt|_]; [lia|].
    cbv zeta.
    destruct (Nat.ltb_spec (length (triage V fs)) 2) as [_|Hge];
      [reflexivity|lia].
  - intros fs _ Hdec. unfold check_liveness_sequence.
    pose proof (filter_length_le (decodable V) fs) as Hle.
    rewrite triage_decodable.
    destruct (Nat.ltb_spec (length fs) 2) as [Hlt|_]; [lia|].
    destruct (Nat.ltb_spec (length (filter (decodable V) fs)) 2)
      as [Hlt|_]; [lia|reflexivity].
Qed.

Lemma undecodable_frames_witness :
  check_liveness_single (vision true) garbage
  = mkLivenessResult false "Could not decode image" 0 0
  /\ check_liveness_sequence (vision true) [garbage; live_frame []]
     = Returned (mkLivenessResult false "Not enough usable frames" 0 0)
  /\ check_liveness_sequence (vision true)
       [live_frame []; garbage; live_frame []]
     = check_liveness_sequence (vision true) [live_frame []; live_frame []].
Proof.
  destruct (undecodable_frames (vision true)) as [Hsingle [Hfew Hdrop]].
  split; [|split].
  - apply Hsingle; [discriminate|reflexivity].
  - apply Hfew; [repeat constructor; discriminate| |]; simpl; lia.
  - apply (Hdrop [live_frame []; garbage; live_frame []]);
      [repeat constructor; discriminate|]. simpl. lia.
Defined.

(** C4 as stated fails on the sequence entry point: two frames that
    carry bytes and do not decode are answered "Not enough usable
    frames". *)
Lemma undecodable_sequence_not_reported :
  carries_bytes garbage
  /\ _decode (vision true) garbage = None
  /\ ~ (exists r,
          check_liveness_sequence (vision true) [garbage; garbage]
          = Returned r
          /\ passed r = false
          /\ lower (reason r) = "could not decode image").
Proof.
  split; [discriminate|]. split; [reflexivity|].
  intros [r [Hr [_ Hreason]]].
  vm_compute in Hr. injection Hr as <-. vm_compute in Hreason.
  discriminate.
Qed.

End SequenceClaims.

Section SharpestFrame.
Import Np Providers DepthCheck Liveness.

Lemma Qltb_lt (x y : Q) : Qltb x y = true <-> x < y.
Proof.
  unfold Qltb. rewrite negb_true_iff, <- not_true_iff_false, Qle_bool_iff.
  split; [apply Qnot_le_lt|apply Qlt_not_le].
Qed.

Lemma Qltb_ge (x y : Q) : Qltb x y = false <-> y <= x.
Proof.
  unfold Qltb. rewrite negb_false_iff. apply Qle_bool_iff.
Qed.

(** Scanning [l] after the prefix [pre], whose largest element [best]
    sits at [bi], ends on a largest element of the whole list. *)
Lemma argmax_from_spec (l : list Q) :
  forall (pre : list Q) (best : Q) (bi : nat),
    nth_error pre bi = Some best ->
    Forall (fun y => y <= best) pre ->
    exists x,
      nth_error (pre ++ l) (argmax_from Qltb best bi (length pre) l) = Some x
      /\ Forall (fun y => y <= x) (pre ++ l).
Proof.
  induction l as [|x t IH]; intros pre best bi Hbi Hmax; simpl.
  - exists best. rewrite app_nil_r. split; assumption.
  - assert (Hbound : (bi < length pre)%nat).
    { apply nth_error_Some. congruence. }
    replace (pre ++ x :: t) with ((pre ++ [x]) ++ t)
      by (rewrite <- app_assoc; reflexivity).
    replace (S (length pre)) with (length (pre ++ [x]))
      by (rewrite length_app; simpl; lia).
    destruct (Qltb best x) eqn:E.
    + apply Qltb_lt in E. apply IH.
      * rewrite nth_error_app2 by lia.
        now replace (length pre - length pre)%nat with 0%nat by lia.
      * apply Forall_app. split.
        -- eapply Forall_impl; [|exact Hmax].
           intros y Hy. simpl in Hy.
           apply Qle_trans with best; [assumption|].
           now apply Qlt_le_weak.
        -- constructor; [apply Qle_refl|constructor].
    + apply Qltb_ge in E. apply IH.
      * now rewrite nth_error_app1 by lia.
      * apply Forall_app. split; [assumption|].
        constructor; [assumption|constructor].
Qed.

Lemma argmax_spec (l : list Q) :
  l <> [] ->
  exists x, nth_error l (argmax Qltb l) = Some x
            /\ Forall (fun y => y <= x) l.
Proof.
  destruct l as [|a t]; [congruence|]. intros _.
  apply (argmax_from_spec t [a] a 0%nat); [reflexivity|].
  constructor; [apply Qle_refl|constructor].
Qed.

(** [best] is a valid index, and no surviving frame is sharper. *)
Lemma best_spec (kept : list Kept) :
  kept <> [] ->
  exists kb, nth_error kept (best kept) = Some kb
             /\ Forall (fun k => k_blur k <= k_blur kb) kept.
Proof.
  intros Hne. unfold best, blurs.
  destruct (argmax_spec (map k_blur kept)) as [x [Hx Hmax]].
  { destruct kept; [congruence|discriminate]. }
  rewrite nth_error_map in Hx.
  destruct (nth_error kept (argmax Qltb (map k_blur kept))) as [kb|];
    [|discriminate].
  exists kb. split; [reflexivity|].
  simpl in Hx. injection Hx as <-.
  rewrite Forall_forall in *. intros k Hk.
  apply Hmax. now apply in_map.
Qed.

Lemma best_sharpest (kept : list Kept) (kb : Kept) :
  nth_error kept (best kept) = Some kb ->
  Forall (fun k => k_blur k <= k_blur kb) kept.
Proof.
  intros Hkb. destruct kept as [|k0 rest].
  - destruct (best []); discriminate.
  - destruct (best_spec (k0 :: rest)) as [kb' [Hkb' Hmax]]; [discriminate|].
    assert (kb' = kb) by congruence. subst kb'. exact Hmax.
Qed.

(** The first valid rectangle belongs to the first frame that has one. *)
Lemma valid_faces_first (kept : list Kept) (v0 : Rect) (vs : list Rect) :
  valid_faces (face_rects kept) = v0 :: vs ->
  exists j kj,
    nth_error kept j = Some kj /\ k_rect kj = Some v0
    /\ forall i ki, (i < j)%nat -> nth_error kept i = Some ki ->
                    k_rect ki = None.
Proof.
  induction kept as [|k rest IH]; simpl; [discriminate|].
  destruct (k_rect k) as [r|] eqn:Er.
  - intros H. injection H as -> _.
    exists 0%nat, k. repeat split; [assumption|]. intros i ki Hi. lia.
  - intros H. destruct (IH H) as [j [kj [Hj [Hr Hbefore]]]].
    exists (S j), kj. repeat split; [assumption|assumption|].
    intros [|i] ki Hi Hki; simpl in Hki.
    + congruence.
    + apply (Hbefore i); [lia|assumption].
Qed.

(** Every surviving frame carries its own gray image, score and face. *)
Lemma triage_consistent (V : Vision) (fs : list (list byte)) :
  Forall (fun k => k_gray k = cvtColor_gray V (k_img k)
                   /\ k_blur k = _blur V (k_gray k)
                   /\ k_rect k = _find_face V (k_gray k)
                   /\ BLUR_MIN_SEQ <= k_blur k)
         (triage V fs).
Proof.
  induction fs as [|fb fs IH]; simpl; [constructor|].
  destruct (_decode V fb) as [img|]; [|assumption].
  destruct (Qltb _ _) eqn:E; [assumption|].
  constructor; [|assumption]. simpl. repeat split.
  now apply Qltb_ge.
Qed.

Lemma spatial_signals_split (V : Vision) (img : Image) (gray : Gray)
    (rect : Rect) :
  spatial_signals V img gray rect
  = _antispoof V img gray rect ++ depth_reading V img rect.
Proof.
  unfold spatial_signals, depth_reading.
  destruct (check_depth V img rect) as [[p r] s].
  destruct (Qltb 0 r); [reflexivity|now rewrite app_nil_r].
Qed.

Lemma depth_reading_length (V : Vision) (img : Image) (rect : Rect) :
  (length (depth_reading V img rect) <= 1)%nat.
Proof.
  unfold depth_reading. destruct (check_depth V img rect) as [[p r] s].
  destruct (Qltb 0 r); simpl; lia.
Qed.

Lemma fail_count_le_length (signals : list Signal) :
  (fail_count signals <= length signals)%nat.
Proof. unfold fail_count. apply filter_length_le. Qed.

End SharpestFrame.

Section SpatialClaims.
Import Np Providers DepthCheck Liveness Synthetic.
Local Open Scope string_scope.

(** C9. When the face crop on the reference frame has a side below 30
    pixels, the pixel signals are not computed: the signal list is at most
    the depth reading, and the verdict is that of the motion stage, never
    an anti-spoof rejection, whatever the frames show. *)
Theorem small_crop_skips_fusion (V : Vision) (fs : list (list byte))
    (v0 : Rect) (vs : list Rect) (kb : Kept) :
  (2 <= length (triage V fs))%nat ->
  valid_faces (face_rects (triage V fs)) = v0 :: vs ->
  nth_error (triage V fs) (best (triage V fs)) = Some kb ->
  let rect := reference_rect kb v0 in
  let gf := face_crop (k_gray kb) rect in
  (nrows gf < 30 \/ ncols gf < 30)%Z ->
  _antispoof V (k_img kb) (k_gray kb) rect = []
  /\ reference_signals V kb v0 = depth_reading V (k_img kb) rect
  /\ (length (reference_signals V kb v0) <= 1)%nat
  /\ check_liveness_sequence V fs = motion_analysis (triage V fs)
  /\ forall signals,
       ~ antispoof_rejection signals (check_liveness_sequence V fs).
Proof.
  intros Hlen Hfaces Hbest rect gf Hsmall.
  assert (Hpix : _antispoof V (k_img kb) (k_gray kb) rect = []).
  { unfold _antispoof. fold gf.
    destruct Hsmall as [H|H]; apply Z.ltb_lt in H; rewrite H;
      [reflexivity|now rewrite orb_true_r]. }
  assert (Hsig : reference_signals V kb v0
                 = depth_reading V (k_img kb) rect).
  { unfold reference_signals. fold rect.
    now rewrite spatial_signals_split, Hpix. }
  assert (Hone : (length (reference_signals V kb v0) <= 1)%nat).
  { rewrite Hsig. apply depth_reading_length. }
  assert (Hres : check_liveness_sequence V fs
                 = motion_analysis (triage V fs)).
  { rewrite (sequence_decision V fs v0 vs kb Hlen Hfaces Hbest).
    pose proof (fail_count_le_length (reference_signals V kb v0)) as Hfc.
    destruct (Nat.leb_spec 2 (fail_count (reference_signals V kb v0)));
      [lia|reflexivity]. }
  repeat split; try assumption.
  intros signals. rewrite Hres. apply motion_not_antispoof.
Qed.

(** Two frames of the screen scene with a 20-pixel face: every pixel
    signal would fail, and the verdict is left to the motion stage. *)
Lemma small_crop_skips_fusion_witness :
  check_liveness_sequence (vision true) [tiny_face_frame; tiny_face_frame]
  = motion_analysis (triage (vision true)
                       [tiny_face_frame; tiny_face_frame]).
Proof.
  apply (small_crop_skips_fusion (vision true)
           [tiny_face_frame; tiny_face_frame]
           (0, 0, 20, 20)%Z [(0, 0, 20, 20)%Z] (shot true x04 tiny_face)).
  - simpl. lia.
  - vm_compute. reflexivity.
  - vm_compute. reflexivity.
  - left. vm_compute. reflexivity.
Defined.

(** C3, as the code has it. Without the depth provider [check_depth]
    answers [(True, 0, 0)] and the signal list is that of the pixel
    signals alone.  With the provider, the [flat_depth] reading is
    appended when the mapped face region has at least 100 cells and a
    positive depth range. *)
Theorem depth_signal_policy (V : Vision) (img : Image) (gray : Gray)
    (rect : Rect) :
  (midas V = None ->
     check_depth V img rect = (true, 0, 0)
     /\ spatial_signals V img gray rect = _antispoof V img gray rect)
  /\ (forall session, midas V = Some session ->
        let roi := depth_roi (session img) img rect in
        (100 <= size roi)%Z ->
        0 < qmax (ravel roi) - qmin (ravel roi) ->
        exists failed diag,
          spatial_signals V img gray rect
          = (_antispoof V img gray rect
             ++ [("flat_depth", failed, diag)])%list).
Proof.
  split.
  - intros Hnone.
    assert (Hd : check_depth V img rect = (true, 0, 0)).
    { unfold check_depth, estimate_depth. now rewrite Hnone. }
    split; [exact Hd|].
    unfold spatial_signals. rewrite Hd. reflexivity.
  - intros session Hsome roi Hsize Hrange.
    unfold spatial_signals, check_depth, estimate_depth.
    rewrite Hsome. fold roi.
    destruct (Z.ltb_spec (size roi) 100) as [Hlt|_]; [lia|].
    apply Qltb_lt in Hrange. rewrite Hrange.
    eexists. eexists. reflexivity.
Qed.

Lemma depth_signal_policy_witness :
  spatial_signals (vision false) (picture x04 screen)
    (cvtColor_gray (vision false) (picture x04 screen)) (0, 0, 80, 80)%Z
  = _antispoof (vision false) (picture x04 screen)
      (cvtColor_gray (vision false) (picture x04 screen)) (0, 0, 80, 80)%Z
  /\ exists failed diag,
       spatial_signals (vision true) (picture x04 screen)
         (cvtColor_gray (vision true) (picture x04 screen))
         (0, 0, 80, 80)%Z
       = (_antispoof (vision true) (picture x04 screen)
            (cvtColor_gray (vision true) (picture x04 screen))
            (0, 0, 80, 80)%Z
          ++ [("flat_depth", failed, diag)])%list.
Proof.
  split.
  - apply (depth_signal_policy (vision false) (picture x04 screen)).
    reflexivity.
  - apply (proj2 (depth_signal_policy (vision true) (picture x04 screen)
                    (cvtColor_gray (vision true) (picture x04 screen))
                    (0, 0, 80, 80)%Z) surface).
    + reflexivity.
    + vm_compute. discriminate.
    + vm_compute. reflexivity.
Defined.

(** C3 as stated fails: the provider is available, the 64-pixel face of
    a 4096 x 4096 frame maps to a 4 x 4 region of the depth map, and no
    [flat_depth] reading is appended. *)
Lemma depth_available_not_appended :
  _decode (vision true) wide_frame = Some wide_picture
  /\ _find_face (vision true) (cvtColor_gray (vision true) wide_picture)
     = Some (0, 0, 64, 64)%Z
  /\ midas (vision true) = Some surface
  /\ size (depth_roi (surface wide_picture) wide_picture (0, 0, 64, 64)%Z)
     = 16%Z
  /\ ~ (exists failed diag,
          In ("flat_depth", failed, diag)
             (spatial_signals (vision true) wide_picture
                (cvtColor_gray (vision true) wide_picture)
                (0, 0, 64, 64)%Z)).
Proof.
  split; [reflexivity|]. split; [vm_compute; reflexivity|].
  split; [reflexivity|]. split; [vm_compute; reflexivity|].
  intros [failed [diag Hin]].
  vm_compute in Hin.
  repeat (destruct Hin as [Hin|Hin]; [discriminate Hin|]).
  exact Hin.
Qed.

(** A perfectly flat depth surface has range 0 and is skipped as well,
    although the provider answered and the region is large enough. *)
Lemma flat_surface_skipped :
  (100 <= size (depth_roi (surface (picture x04 flat)) (picture x04 flat)
                  (0, 0, 80, 80)%Z))%Z
  /\ depth_reading (vision true) (picture x04 flat) (0, 0, 80, 80)%Z = [].
Proof.
  split; vm_compute; [discriminate|reflexivity].
Qed.

(** C10. When no face was found in the sharpest surviving frame, the
    signals are still read on that frame, inside the rectangle of the
    first surviving frame that has one, which is another frame; the
    verdict follows from those readings. *)
Theorem borrowed_rectangle (V : Vision) (fs : list (list byte))
    (v0 : Rect) (vs : list Rect) (kb : Kept) :
  (2 <= length (triage V fs))%nat ->
  valid_faces (face_rects (triage V fs)) = v0 :: vs ->
  nth_error (triage V fs) (best (triage V fs)) = Some kb ->
  k_rect kb = None ->
  let kept := triage V fs in
  let signals := (_antispoof V (k_img kb) (k_gray kb) v0
                  ++ depth_reading V (k_img kb) v0)%list in
  Forall (fun k => k_blur k <= k_blur kb) kept
  /\ _find_face V (k_gray kb) = None
  /\ (exists j kj,
        j <> best kept /\ nth_error kept j = Some kj
        /\ _find_face V (k_gray kj) = Some v0
        /\ forall i ki, (i < j)%nat -> nth_error kept i = Some ki ->
                        k_rect ki = None)
  /\ reference_signals V kb v0 = signals
  /\ check_liveness_sequence V fs
     = if (2 <=? fail_count signals)%nat
       then Returned (antispoof_verdict signals kept)
       else motion_analysis kept.
Proof.
  intros Hlen Hfaces Hbest Hnone kept signals.
  pose proof (triage_consistent V fs) as Hcons.
  rewrite Forall_forall in Hcons.
  assert (Hsig : reference_signals V kb v0 = signals).
  { unfold reference_signals, reference_rect. rewrite Hnone.
    apply spatial_signals_split. }
  split; [exact (best_sharpest _ _ Hbest)|].
  split.
  { destruct (Hcons kb (nth_error_In _ _ Hbest)) as [_ [_ [Hr _]]].
    congruence. }
  split.
  { destruct (valid_faces_first _ _ _ Hfaces) as [j [kj [Hj [Hr Hbefore]]]].
    exists j, kj. repeat split; try assumption.
    - intros Heq. subst j. unfold kept in Hj. rewrite Hbest in Hj.
      injection Hj as <-. congruence.
    - destruct (Hcons kj (nth_error_In _ _ Hj)) as [_ [_ [Hf _]]].
      congruence. }
  split; [exact Hsig|].
  rewrite (sequence_decision V fs v0 vs kb Hlen Hfaces Hbest), Hsig.
  reflexivity.
Qed.

(** The sharper of two frames shows no face; its pixels are analysed
    inside the rectangle found in the other frame. *)
Lemma borrowed_rectangle_witness :
  _find_face (vision true) (k_gray (shot true x04 faceless)) = None
  /\ reference_signals (vision true) (shot true x04 faceless)
       (0, 0, 80, 80)%Z
     = (_antispoof (vision true) (k_img (shot true x04 faceless))
          (k_gray (shot true x04 faceless)) (0, 0, 80, 80)%Z
        ++ depth_reading (vision true) (k_img (shot true x04 faceless))
             (0, 0, 80, 80)%Z)%list.
Proof.
  pose proof (borrowed_rectangle (vision true)
                [live_frame []; faceless_frame]
                (0, 0, 80, 80)%Z [] (shot true x04 faceless)) as H.
  cbv zeta in H.
  destruct H as [_ [Hface [_ [Hsig _]]]].
  - simpl. lia.
  - vm_compute. reflexivity.
  - vm_compute. reflexivity.
  - vm_compute. reflexivity.
  - split; assumption.
Defined.

End SpatialClaims.

(** ** Text of the verdicts *)

Section VerdictText.
Import Np Providers DepthCheck Liveness.
Local Open Scope string_scope.



Lemma prefix_app (needle post : string) :
  String.prefix needle (needle ++ post) = true.
Proof.
  induction needle as [|a needle IH]; simpl.
  - destruct post; reflexivity.
  - destruct (ascii_dec a a) as [_|Hne]; [exact IH|now elim Hne].
Qed.












(** ** Formatting depends on the value only *)




End VerdictText.

(** * The fusion rule, read on the readings *)

Section FusionRule.
Import Np Providers DepthCheck Liveness Readings Synthetic.
Local Open Scope string_scope.

(** The two lists the code builds from the readings are the count and the
    entries of the specification. *)
Lemma failures_fail_count (signals : list Signal) :
  fail_count signals = failures signals.
Proof.
  unfold fail_count.
  induction signals as [|[[n [|]] d] t IH]; simpl; [reflexivity| |exact IH].
  f_equal. exact IH.
Qed.

Lemma failing_entries_fail_reasons (signals : list Signal) :
  fail_reasons signals = failing_entries signals.
Proof.
  unfold fail_reasons.
  induction signals as [|[[n [|]] d] t IH]; simpl; [reflexivity| |exact IH].
  f_equal. exact IH.
Qed.

Lemma failing_entry_listed (signals : list Signal) (n d : string) :
  In (n, true, d) signals ->
  In (n ++ "(" ++ d ++ ")") (failing_entries signals).
Proof.
  induction signals as [|[[n' [|]] d'] t IH]; simpl; [tauto| |].
  - intros [H|H]; [injection H as -> ->; now left|right; auto].
  - intros [H|H]; [discriminate|auto].
Qed.

Lemma string_app_assoc (a b c : string) : (a ++ b) ++ c = a ++ b ++ c.
Proof. induction a as [|x a IH]; simpl; [reflexivity|now rewrite IH]. Qed.

Lemma string_app_nil_r (s : string) : s ++ "" = s.
Proof. induction s as [|x s IH]; simpl; [reflexivity|now rewrite IH]. Qed.

Lemma mentions_refl (s : string) : mentions s s.
Proof. exists "", "". simpl. now rewrite string_app_nil_r. Qed.

Lemma mentions_app_l (needle p s : string) :
  mentions needle s -> mentions needle (p ++ s).
Proof.
  intros [pre [post ->]]. exists (p ++ pre), post.
  now rewrite string_app_assoc.
Qed.

(** Every element of the list is read in [sep.join(l)]. *)
Lemma join_mentions (sep : string) (l : list string) (s : string) :
  In s l -> mentions s (join sep l).
Proof.
  induction l as [|a l IH]; [intros []|].
  intros [->|H].
  - destruct l as [|b l]; [apply mentions_refl|].
    change (join sep (s :: b :: l)) with (s ++ sep ++ join sep (b :: l)).
    exists "", (sep ++ join sep (b :: l)). reflexivity.
  - destruct l as [|b l]; [destruct H|].
    change (join sep (a :: b :: l)) with (a ++ sep ++ join sep (b :: l)).
    apply mentions_app_l, mentions_app_l, IH, H.
Qed.

Lemma motion_reason_prefix (t : string) :
  String.prefix "Anti-spoof failed: " (String "I" t) = false.
Proof. reflexivity. Qed.

(** No verdict of the motion stage reads as an anti-spoof rejection. *)
Lemma motion_not_spatial_rejection (kept : list Kept) :
  ~ spatial_rejection (motion_analysis kept).
Proof.
  unfold motion_analysis, spatial_rejection.
  destruct (pairwise_motions (grays kept)) as [ms|e].
  - cbv zeta. destruct (Qltb (mean ms) MOTION_AVG_MIN);
      intros [r [Hr [Hp Hpre]]]; injection Hr as <-;
      cbn [reason passed] in Hp, Hpre; [|discriminate Hp].
    rewrite motion_reason_prefix in Hpre. discriminate Hpre.
  - intros [r [Hr _]]. discriminate.
Qed.

(** The readings of the reference frame are the three pixel readings, or
    none of them, followed by the depth reading, or not. *)
Lemma spatial_signal_names (V : Vision) (img : Image) (gray : Gray)
    (rect : Rect) :
  exists pixel depth,
    spatial_signals V img gray rect = (pixel ++ depth)%list
    /\ (pixel = []
        \/ map signal_name pixel
           = ["texture"; "screen_pattern"; "flat_colour"])
    /\ (depth = [] \/ map signal_name depth = ["flat_depth"]).
Proof.
  exists (_antispoof V img gray rect), (depth_reading V img rect).
  split; [apply spatial_signals_split|]. split.
  - unfold _antispoof.
    destruct ((nrows (face_crop gray rect) <? 30)%Z
              || (ncols (face_crop gray rect) <? 30)%Z);
      [now left|right; reflexivity].
  - unfold depth_reading. destruct (check_depth V img rect) as [[p r] s].
    destruct (Qltb 0 r); [right; reflexivity|now left].
Qed.

(** C2. Once at least 2 usable frames survive and a face is located, the
    verdict is an anti-spoof rejection exactly when 2 or more of the
    readings taken on the reference frame report failure.  The rejection
    is not passed and its reason is "Anti-spoof failed: " followed by the
    entries [name(value)] of the failing readings, separated by ", ": each
    failing reading has its name and its diagnostic value in the reason.
    With exactly one failing reading the verdict is that of the motion
    stage and no anti-spoof rejection.  The readings are those of texture,
    screen pattern and flat colour, then the one of depth when it was
    taken.  Frames are taken to carry bytes. *)
Theorem spatial_fusion_rule (V : Vision) (fs : list (list byte))
    (v0 : Rect) (vs : list Rect) (kb : Kept) :
  Forall carries_bytes fs ->
  (2 <= length (triage V fs))%nat ->
  valid_faces (face_rects (triage V fs)) = v0 :: vs ->
  nth_error (triage V fs) (best (triage V fs)) = Some kb ->
  let signals := reference_signals V kb v0 in
  let verdict := check_liveness_sequence V fs in
  (spatial_rejection verdict <-> (2 <= failures signals)%nat)
  /\ ((2 <= failures signals)%nat ->
      exists r,
        verdict = Returned r /\ passed r = false
        /\ reason r
           = "Anti-spoof failed: " ++ join ", " (failing_entries signals)
        /\ forall n d, In (n, true, d) signals ->
                       mentions (n ++ "(" ++ d ++ ")") (reason r))
  /\ (failures signals = 1%nat ->
      verdict = motion_analysis (triage V fs)
      /\ ~ spatial_rejection verdict)
  /\ exists pixel depth,
       signals = (pixel ++ depth)%list
       /\ (pixel = []
           \/ map signal_name pixel
              = ["texture"; "screen_pattern"; "flat_colour"])
       /\ (depth = [] \/ map signal_name depth = ["flat_depth"]).
Proof.
  intros _ Hlen Hfaces Hbest signals verdict.
  assert (Hv : verdict
               = if (2 <=? failures signals)%nat
                 then Returned (antispoof_verdict signals (triage V fs))
                 else motion_analysis (triage V fs)).
  { unfold verdict.
    rewrite (sequence_decision V fs v0 vs kb Hlen Hfaces Hbest).
    fold signals. now rewrite failures_fail_count. }
  assert (Hreason : reason (antispoof_verdict signals (triage V fs))
                    = "Anti-spoof failed: "
                      ++ join ", " (failing_entries signals)).
  { unfold antispoof_verdict. cbn [reason].
    now rewrite failing_entries_fail_reasons. }
  assert (Hrej : (2 <= failures signals)%nat ->
                 exists r,
                   verdict = Returned r /\ passed r = false
                   /\ reason r
                      = "Anti-spoof failed: "
                        ++ join ", " (failing_entries signals)
                   /\ forall n d, In (n, true, d) signals ->
                        mentions (n ++ "(" ++ d ++ ")") (reason r)).
  { intros Hge. apply Nat.leb_le in Hge. rewrite Hge in Hv.
    exists (antispoof_verdict signals (triage V fs)).
    split; [exact Hv|]. split; [reflexivity|]. split; [exact Hreason|].
    intros n d Hin. rewrite Hreason.
    apply mentions_app_l, join_mentions, failing_entry_listed, Hin. }
  assert (Hmotion : (failures signals < 2)%nat ->
                    verdict = motion_analysis (triage V fs)
                    /\ ~ spatial_rejection verdict).
  { intros Hlt. apply Nat.leb_gt in Hlt. rewrite Hlt in Hv.
    split; [exact Hv|]. rewrite Hv. apply motion_not_spatial_rejection. }
  split; [|split; [exact Hrej|split]].
  - split.
    + intros Hs.
      destruct (Nat.le_gt_cases 2 (failures signals)) as [Hge|Hlt];
        [exact Hge|].
      exfalso. exact (proj2 (Hmotion Hlt) Hs).
    + intros Hge. destruct (Hrej Hge) as [r [Hr [Hp [Hre _]]]].
      exists r. split; [exact Hr|]. split; [exact Hp|].
      rewrite Hre. apply prefix_app.
  - intros Hone. apply Hmotion. lia.
  - apply spatial_signal_names.
Qed.

(** Two copies of a screen shot: texture, screen pattern and flat colour
    fail, depth passes, and the verdict names the three with their values.
    Two copies of a smooth scene: texture alone fails, and the verdict is
    that of the motion stage. *)
Lemma spatial_fusion_rule_witness :
  reference_signals (vision true) (shot true x04 screen) (0, 0, 80, 80)%Z
  = [("texture", true, "entropy=3.20");
     ("screen_pattern", true, "moiré=0.980");
     ("flat_colour", true, "Cr_var=5.0");
     ("flat_depth", false, "range=79.0 std=19.8")]
  /\ (exists r,
        check_liveness_sequence (vision true) [screen_frame; screen_frame]
        = Returned r
        /\ passed r = false
        /\ reason r
           = "Anti-spoof failed: texture(entropy=3.20), screen_pattern(moiré=0.980), flat_colour(Cr_var=5.0)")
  /\ failures (reference_signals (vision true) (shot true x04 smooth)
                 (0, 0, 80, 80)%Z) = 1%nat
  /\ check_liveness_sequence (vision true) [smooth_frame; smooth_frame]
     = motion_analysis (triage (vision true) [smooth_frame; smooth_frame])
  /\ ~ spatial_rejection
         (check_liveness_sequence (vision true)
            [smooth_frame; smooth_frame]).
Proof.
  assert (Hscreen :
            reference_signals (vision true) (shot true x04 screen)
              (0, 0, 80, 80)%Z
            = [("texture", true, "entropy=3.20");
               ("screen_pattern", true, "moiré=0.980");
               ("flat_colour", true, "Cr_var=5.0");
               ("flat_depth", false, "range=79.0 std=19.8")])
    by (vm_compute; reflexivity).
  assert (Hsmooth :
            failures (reference_signals (vision true) (shot true x04 smooth)
                        (0, 0, 80, 80)%Z) = 1%nat)
    by (vm_compute; reflexivity).
  split; [exact Hscreen|].
  split.
  - destruct (spatial_fusion_rule (vision true) [screen_frame; screen_frame]
                (0, 0, 80, 80)%Z [(0, 0, 80, 80)%Z] (shot true x04 screen))
      as [_ [Hrej _]].
    + repeat constructor; discriminate.
    + simpl. lia.
    + vm_compute. reflexivity.
    + vm_compute. reflexivity.
    + destruct Hrej as [r [Hr [Hp [Hre _]]]].
      * rewrite Hscreen. simpl. lia.
      * exists r. split; [exact Hr|]. split; [exact Hp|].
        rewrite Hre, Hscreen. reflexivity.
  - split; [exact Hsmooth|].
    destruct (spatial_fusion_rule (vision true) [smooth_frame; smooth_frame]
                (0, 0, 80, 80)%Z [(0, 0, 80, 80)%Z] (shot true x04 smooth))
      as [_ [_ [Hone _]]].
    + repeat constructor; discriminate.
    + simpl. lia.
    + vm_compute. reflexivity.
    + vm_compute. reflexivity.
    + exact (Hone Hsmooth).
Defined.

End FusionRule.

(** ** Motion of a still sequence *)

Section StillSequence.
Import Np Providers DepthCheck Liveness.











End StillSequence.

Section MotionClaims.
Import Np Providers DepthCheck Liveness Synthetic.
Local Open Scope string_scope.



End MotionClaims.

(* ================================================================== *)
(** * Further properties of the liveness engine *)

Section ArgmaxGeneric.
Import Np.
Variable A : Type.
Variable lt : A -> A -> bool.
Variable le : A -> A -> Prop.
Hypothesis le_refl : forall a, le a a.
Hypothesis le_trans : forall a b c, le a b -> le b c -> le a c.
Hypothesis lt_le : forall a b, lt a b = true -> le a b.
Hypothesis nlt_le : forall a b, lt a b = false -> le b a.

(** [argmax_from] over any decidable total preorder. *)
Lemma argmax_from_max (l : list A) :
  forall (pre : list A) (top : A) (bi : nat),
    nth_error pre bi = Some top ->
    Forall (fun y => le y top) pre ->
    exists x,
      nth_error (pre ++ l) (argmax_from lt top bi (length pre) l) = Some x
      /\ Forall (fun y => le y x) (pre ++ l).
Proof.
  induction l as [|x t IH]; intros pre top bi Hbi Hmax; simpl.
  - exists top. rewrite app_nil_r. split; assumption.
  - assert (Hbound : (bi < length pre)%nat).
    { apply nth_error_Some. congruence. }
    replace (pre ++ x :: t) with ((pre ++ [x]) ++ t)
      by (rewrite <- app_assoc; reflexivity).
    replace (S (length pre)) with (length (pre ++ [x]))
      by (rewrite length_app; simpl; lia).
    destruct (lt top x) eqn:E.
    + apply IH.
      * rewrite nth_error_app2 by lia.
        now replace (length pre - length pre)%nat with 0%nat by lia.
      * apply Forall_app. split.
        -- eapply Forall_impl; [|exact Hmax].
           intros y Hy. apply le_trans with top; [exact Hy|].
           now apply lt_le.
        -- constructor; [apply le_refl|constructor].
    + apply IH.
      * now rewrite nth_error_app1 by lia.
      * apply Forall_app. split; [assumption|].
        constructor; [now apply nlt_le|constructor].
Qed.

Lemma argmax_max (a : A) (t : list A) :
  exists x, nth_error (a :: t) (argmax lt (a :: t)) = Some x
            /\ Forall (fun y => le y x) (a :: t).
Proof.
  apply (argmax_from_max t [a] a 0%nat); [reflexivity|].
  constructor; [apply le_refl|constructor].
Qed.

End ArgmaxGeneric.

Section FaceLocator.
Import Np Providers DepthCheck Liveness Readings Synthetic.
Local Open Scope string_scope.

Lemma argmax_Z (a : Z) (t : list Z) :
  exists x, nth_error (a :: t) (argmax Z.ltb (a :: t)) = Some x
            /\ Forall (fun y => (y <= x)%Z) (a :: t).
Proof.
  apply (argmax_max Z Z.ltb Z.le); intros.
  - lia.
  - lia.
  - apply Z.ltb_lt in H. lia.
  - apply Z.ltb_ge in H. lia.
Qed.

Lemma find_face_spec (V : Vision) (gray : Gray) :
  match _find_face V gray with
  | None => detectMultiScale V gray = []
  | Some r =>
      In r (detectMultiScale V gray)
      /\ Forall (fun r' => (rect_area r' <= rect_area r)%Z)
                (detectMultiScale V gray)
  end.
Proof.
  unfold _find_face.
  destruct (detectMultiScale V gray) as [|f0 rest] eqn:Hd; [reflexivity|].
  cbv zeta.
  change (fun '(_, _, w, h) => i32 (w * h)) with rect_area.
  set (i := argmax Z.ltb (map rect_area (f0 :: rest))).
  destruct (argmax_Z (rect_area f0) (map rect_area rest)) as [x [Hx Hmax]].
  change (nth_error (map rect_area (f0 :: rest)) i = Some x) in Hx.
  change (Forall (fun y => (y <= x)%Z) (map rect_area (f0 :: rest)))
    in Hmax.
  rewrite nth_error_map in Hx.
  destruct (nth_error (f0 :: rest) i) as [r|] eqn:Hr; [|discriminate].
  simpl in Hx. injection Hx as <-.
  change (In (nth i (f0 :: rest) f0) (f0 :: rest)
          /\ Forall (fun r' => (rect_area r' <=
                                rect_area (nth i (f0 :: rest) f0))%Z)
                    (f0 :: rest)).
  rewrite (nth_error_nth _ _ f0 Hr).
  split; [exact (nth_error_In _ _ Hr)|].
  rewrite Forall_forall in *. intros r' Hr'.
  apply Hmax. now apply in_map.
Qed.

(** [_find_face] answers [None] exactly when the cascade detects nothing;
    otherwise it returns one of the detected rectangles, and no detected
    rectangle has a larger [int32] area [w * h]. *)
Theorem find_face_largest (V : Vision) (gray : Gray) :
  match _find_face V gray with
  | None => detectMultiScale V gray = []
  | Some r =>
      In r (detectMultiScale V gray)
      /\ Forall (fun r' => (rect_area r' <= rect_area r)%Z)
                (detectMultiScale V gray)
  end.
Proof. exact (find_face_spec V gray). Qed.

(** Single-frame liveness passes exactly when the bytes decode, the
    Laplacian variance is at least 25 and the cascade detects a face; a
    decodable frame below 25 is answered with the blur message and its
    score, whether or not it shows a face. *)
Theorem single_frame_verdict (V : Vision) (b : list byte) :
  (passed (check_liveness_single V b) = true
   <-> exists img,
         _decode V b = Some img
         /\ BLUR_MIN_SINGLE <= _blur V (cvtColor_gray V img)
         /\ detectMultiScale V (cvtColor_gray V img) <> [])
  /\ match _decode V b with
     | None => True
     | Some img =>
         let blur := _blur V (cvtColor_gray V img) in
         blur < BLUR_MIN_SINGLE ->
         check_liveness_single V b
         = mkLivenessResult false
             ("Image too blurry (score=" ++ fmt 1 blur ++ ")") blur 0
     end.
Proof.
  unfold check_liveness_single.
  destruct (_decode V b) as [img|] eqn:Hdec.
  - cbv zeta.
    destruct (Qltb (_blur V (cvtColor_gray V img)) BLUR_MIN_SINGLE) eqn:Hb.
    + split; [|reflexivity]. simpl. split; [discriminate|].
      intros [img' [Himg [Hsharp _]]]. injection Himg as <-.
      apply Qltb_lt in Hb. exfalso. exact (Qlt_not_le _ _ Hb Hsharp).
    + apply Qltb_ge in Hb. split.
      * pose proof (find_face_spec V (cvtColor_gray V img)) as Hf.
        destruct (_find_face V (cvtColor_gray V img)) as [r|]; simpl.
        -- split; [|reflexivity]. intros _. exists img.
           repeat split; [exact Hb|]. destruct Hf as [Hin _].
           intros Hnil. rewrite Hnil in Hin. exact Hin.
        -- split; [discriminate|].
           intros [img' [Himg [_ Hne]]]. injection Himg as <-.
           now elim Hne.
      * intros Hlt. exfalso. exact (Qlt_not_le _ _ Hlt Hb).
  - split; [|exact I]. simpl. split; [discriminate|].
    intros [img [Himg _]]. discriminate.
Qed.

Lemma single_frame_verdict_witness :
  passed (check_liveness_single (vision true) (live_frame [])) = true.
Proof.
  apply (proj1 (single_frame_verdict (vision true) (live_frame []))).
  exists (picture x04 (live [])). split; [reflexivity|].
  split; vm_compute; discriminate.
Defined.

End FaceLocator.

Section PassingVerdicts.
Import Np Providers DepthCheck Liveness Readings Synthetic.
Local Open Scope string_scope.




(** Reading a passing verdict off an outcome that was run. *)
Lemma returned_passed (o : outcome LivenessResult) :
  match o with
  | Returned r => passed r = true
  | Raised _ => False
  end ->
  exists r, o = Returned r /\ passed r = true.
Proof.
  destruct o as [r|e]; [|intros []]. intros Hp. exists r. now split.
Qed.


(** ** Which frames count *)

Lemma triage_usable (V : Vision) (fs : list (list byte)) :
  triage V (filter (usable V) fs) = triage V fs.
Proof.
  induction fs as [|fb fs IH]; simpl; [reflexivity|].
  unfold usable at 1.
  destruct (_decode V fb) as [img|] eqn:E; [|exact IH].
  destruct (Qltb (_blur V (cvtColor_gray V img)) BLUR_MIN_SEQ) eqn:Hb;
    simpl; [exact IH|].
  rewrite E. cbv zeta. rewrite Hb, IH. reflexivity.
Qed.

Lemma triage_counts_usable (V : Vision) (fs : list (list byte)) :
  length (triage V fs) = length (filter (usable V) fs).
Proof.
  induction fs as [|fb fs IH]; simpl; [reflexivity|].
  unfold usable at 1.
  destruct (_decode V fb) as [img|] eqn:E; [|exact IH].
  destruct (Qltb (_blur V (cvtColor_gray V img)) BLUR_MIN_SEQ);
    simpl; now rewrite IH.
Qed.

(** On frames that carry bytes, the sequence verdict depends on the usable
    ones only (those that decode with a Laplacian variance of at least
    15): with 2 or more of them it is the verdict of the usable frames
    alone, and a list of at least 2 frames with fewer than 2 usable ones
    is answered "Not enough usable frames". *)
Theorem only_usable_frames_count (V : Vision) (fs : list (list byte)) :
  Forall carries_bytes fs ->
  ((2 <= length (filter (usable V) fs))%nat ->
     check_liveness_sequence V fs
     = check_liveness_sequence V (filter (usable V) fs))
  /\ ((2 <= length fs)%nat ->
      (length (filter (usable V) fs) < 2)%nat ->
      check_liveness_sequence V fs
      = Returned (mkLivenessResult false "Not enough usable frames" 0 0)).
Proof.
  intros _.
  pose proof (filter_length_le (usable V) fs) as Hle.
  pose proof (triage_counts_usable V fs) as Hcount.
  split.
  - intros Hus. unfold check_liveness_sequence. rewrite triage_usable.
    destruct (Nat.ltb_spec (length fs) 2) as [Hlt|_]; [lia|].
    destruct (Nat.ltb_spec (length (filter (usable V) fs)) 2)
      as [Hlt|_]; [lia|reflexivity].
  - intros Hlen Hfew. unfold check_liveness_sequence.
    destruct (Nat.ltb_spec (length fs) 2) as [Hlt|_]; [lia|].
    cbv zeta.
    destruct (Nat.ltb_spec (length (triage V fs)) 2) as [_|Hge];
      [reflexivity|lia].
Qed.

Lemma only_usable_frames_count_witness :
  check_liveness_sequence (vision true)
    [screen_frame; SyntheticFaces.blurry_frame; screen_frame]
  = check_liveness_sequence (vision true) [screen_frame; screen_frame]
  /\ check_liveness_sequence (vision true)
       [SyntheticFaces.blurry_frame; screen_frame]
     = Returned (mkLivenessResult false "Not enough usable frames" 0 0).
Proof.
  split.
  - apply (proj1 (only_usable_frames_count (vision true)
                    [screen_frame; SyntheticFaces.blurry_frame;
                     screen_frame]
                    ltac:(repeat constructor; discriminate))).
    vm_compute. lia.
  - apply (proj2 (only_usable_frames_count (vision true)
                    [SyntheticFaces.blurry_frame; screen_frame]
                    ltac:(repeat constructor; discriminate))).
    + simpl. lia.
    + vm_compute. lia.
Defined.

End PassingVerdicts.

Section DepthReadings.
Import Np Providers DepthCheck Liveness Readings Synthetic.
Local Open Scope string_scope.

Lemma fold_max_ge (t : list Q) :
  forall x, x <= fold_left (fun m y => if Qltb m y then y else m) t x.
Proof.
  induction t as [|y t IH]; intros x; simpl; [apply Qle_refl|].
  destruct (Qltb x y) eqn:E.
  - apply Qltb_lt in E. apply Qle_trans with y; [|apply IH].
    now apply Qlt_le_weak.
  - apply IH.
Qed.

Lemma fold_min_le (t : list Q) :
  forall x, fold_left (fun m y => if Qltb y m then y else m) t x <= x.
Proof.
  induction t as [|y t IH]; intros x; simpl; [apply Qle_refl|].
  destruct (Qltb y x) eqn:E.
  - apply Qltb_lt in E. apply Qle_trans with y; [apply IH|].
    now apply Qlt_le_weak.
  - apply IH.
Qed.

Lemma range_nonneg (l : list Q) : 0 <= qmax l - qmin l.
Proof.
  destruct l as [|x t]; [discriminate|].
  unfold qmax, qmin, Qminus. apply (proj1 (Qle_minus_iff _ _)).
  apply Qle_trans with x; [apply fold_min_le|apply fold_max_ge].
Qed.

Lemma fold_max_in (t : list Q) :
  forall x,
    In (fold_left (fun m y => if Qltb m y then y else m) t x) (x :: t).
Proof.
  induction t as [|y t IH]; intros x; simpl; [now left|].
  destruct (Qltb x y); destruct (IH (if true then y else x)) as [H|H];
    destruct (IH x) as [H'|H']; simpl in *; auto.
Qed.

Lemma fold_min_in (t : list Q) :
  forall x,
    In (fold_left (fun m y => if Qltb y m then y else m) t x) (x :: t).
Proof.
  induction t as [|y t IH]; intros x; simpl; [now left|].
  destruct (Qltb y x); destruct (IH y) as [H|H];
    destruct (IH x) as [H'|H']; simpl in *; auto.
Qed.

(** A list of equal values has range 0. *)
Lemma range_constant (c : Q) (l : list Q) :
  Forall (fun x => x == c) l -> qmax l - qmin l == 0.
Proof.
  intros Hall. destruct l as [|x t]; [reflexivity|].
  rewrite Forall_forall in Hall.
  assert (Hmax : qmax (x :: t) == c) by (apply Hall, fold_max_in).
  assert (Hmin : qmin (x :: t) == c) by (apply Hall, fold_min_in).
  rewrite Hmax, Hmin. ring.
Qed.

Lemma ravel_cells {A} (P : A -> Prop) (a : ndarray A) :
  (forall i j, P (item a i j)) -> Forall P (ravel a).
Proof.
  intros Hall. unfold ravel. apply Forall_forall. intros x Hx.
  apply in_flat_map in Hx. destruct Hx as [i [_ Hx]].
  apply in_map_iff in Hx. destruct Hx as [j [<- _]]. apply Hall.
Qed.

Lemma crop_cells {A} (P : A -> Prop) (a : ndarray A)
    (r0 r1 c0 c1 : option Z) :
  (forall i j, P (item a i j)) ->
  forall i j, P (item (crop a r0 r1 c0 c1) i j).
Proof.
  intros Hall i j. unfold crop.
  destruct (slice (nrows a) r0 r1) as [ro rl].
  destruct (slice (ncols a) c0 c1) as [co cl]. simpl. apply Hall.
Qed.

(** [check_depth] never reports a negative range, and it reports failure
    only when the model answered, the mapped face region has at least
    100 cells, the standard deviation is below 5 and the centre-edge
    gradient below 15. *)
Theorem check_depth_readings (V : Vision) (img : Image) (rect : Rect) :
  let '(depth_passed, d_range, d_std) := check_depth V img rect in
  0 <= d_range
  /\ (depth_passed = false ->
      exists session,
        midas V = Some session
        /\ (100 <= size (depth_roi (session img) img rect))%Z
        /\ np_std V (depth_roi (session img) img rect) < DEPTH_STD_MIN
        /\ center_edge_gradient (depth_roi (session img) img rect)
           < DEPTH_RANGE_MIN).
Proof.
  unfold check_depth, estimate_depth.
  destruct (midas V) as [session|]; [|split; [apply Qle_refl|discriminate]].
  set (roi := depth_roi (session img) img rect).
  destruct (Z.ltb_spec (size roi) 100) as [_|Hsize];
    [split; [apply Qle_refl|discriminate]|].
  cbv zeta. split; [apply range_nonneg|].
  intros Hfail. apply orb_false_iff in Hfail. destruct Hfail as [Hs Hg].
  exists session. repeat split; try assumption.
  - apply Qnot_le_lt. intros H. apply Qle_bool_iff in H.
    fold roi in H. rewrite H in Hs. discriminate Hs.
  - apply Qnot_le_lt. intros H. apply Qle_bool_iff in H.
    fold roi in H. rewrite H in Hg. discriminate Hg.
Qed.

(** A depth map that is constant is never read as a signal: its range is
    0, which the caller takes for "model unavailable", so no [flat_depth]
    reading is appended and the surface cannot count as a failure. *)
Theorem constant_depth_is_skipped (V : Vision) (img : Image) (gray : Gray)
    (rect : Rect) (session : Image -> DepthMap) (c : Q) :
  midas V = Some session ->
  (forall i j, item (session img) i j == c) ->
  depth_reading V img rect = []
  /\ spatial_signals V img gray rect = _antispoof V img gray rect.
Proof.
  intros Hsession Hflat.
  assert (Hd : depth_reading V img rect = []).
  { unfold depth_reading, check_depth, estimate_depth. rewrite Hsession.
    set (roi := depth_roi (session img) img rect).
    destruct (size roi <? 100)%Z; [reflexivity|]. cbv zeta.
    assert (Hz : qmax (ravel roi) - qmin (ravel roi) == 0).
    { apply (range_constant c).
      apply (ravel_cells (fun q => q == c)).
      unfold roi, depth_roi. destruct rect as [[[x y] fw] fh].
      apply (crop_cells (fun q => q == c)). exact Hflat. }
    assert (Hskip : Qltb 0 (qmax (ravel roi) - qmin (ravel roi)) = false).
    { apply Qltb_ge. rewrite Hz. apply Qle_refl. }
    now rewrite Hskip. }
  split; [exact Hd|].
  rewrite spatial_signals_split, Hd. apply app_nil_r.
Qed.

Lemma constant_depth_is_skipped_witness :
  depth_reading (vision true) (picture x04 flat) (0, 0, 80, 80)%Z = [].
Proof.
  apply (constant_depth_is_skipped (vision true) (picture x04 flat)
           (cvtColor_gray (vision true) (picture x04 flat))
           (0, 0, 80, 80)%Z surface 0).
  - reflexivity.
  - intros i j. unfold surface, flat, picture, green. simpl.
    now rewrite Z.mul_0_r.
Defined.

(** ** The chroma region *)

Lemma crop_shape {A} (a : ndarray A) (r0 r1 c0 c1 : option Z) :
  nrows (crop a r0 r1 c0 c1) = snd (slice (nrows a) r0 r1)
  /\ ncols (crop a r0 r1 c0 c1) = snd (slice (ncols a) c0 c1).
Proof.
  unfold crop.
  destruct (slice (nrows a) r0 r1) as [ro rl].
  destruct (slice (ncols a) c0 c1) as [co cl]. split; reflexivity.
Qed.

(** When [_antispoof] reads its signals on a frame, the chroma region of
    [_skin_cr_var] has the shape of the gray face crop, at least
    30 x 30: the fallback value 100.0 for an empty region is never used
    there, and the reading is the Cr variance of the region. *)
Theorem chroma_region_not_empty (V : Vision) (img : Image) (rect : Rect) :
  _antispoof V img (cvtColor_gray V img) rect <> [] ->
  let '(x, y, fw, fh) := rect in
  let roi := crop img (Some y) (Some (i32 (y + fh)))
                      (Some x) (Some (i32 (x + fw))) in
  (30 <= nrows roi)%Z /\ (30 <= ncols roi)%Z
  /\ _skin_cr_var V img rect = cr_variance V roi.
Proof.
  unfold _antispoof. destruct rect as [[[x y] fw] fh].
  set (gf := face_crop (cvtColor_gray V img) (x, y, fw, fh)).
  destruct (Z.ltb_spec (nrows gf) 30) as [_|Hr]; [intros H; now elim H|].
  destruct (Z.ltb_spec (ncols gf) 30) as [_|Hc]; [intros H; now elim H|].
  intros _. cbv zeta.
  set (roi := crop img (Some y) (Some (i32 (y + fh)))
                       (Some x) (Some (i32 (x + fw)))).
  assert (Hshape : nrows roi = nrows gf /\ ncols roi = ncols gf).
  { unfold roi, gf, face_crop.
    destruct (crop_shape img (Some y) (Some (i32 (y + fh)))
                (Some x) (Some (i32 (x + fw)))) as [-> ->].
    destruct (crop_shape (cvtColor_gray V img) (Some y)
                (Some (i32 (y + fh))) (Some x) (Some (i32 (x + fw))))
      as [-> ->].
    split; reflexivity. }
  destruct Hshape as [Hrows Hcols].
  split; [lia|]. split; [lia|].
  unfold _skin_cr_var. fold roi.
  destruct (Z.eqb_spec (size roi) 0) as [Hz|_]; [|reflexivity].
  unfold size in Hz. nia.
Qed.

Lemma chroma_region_not_empty_witness :
  _skin_cr_var (vision true) (picture x04 screen) (0, 0, 80, 80)%Z
  = cr_variance (vision true)
      (crop (picture x04 screen) (Some 0%Z) (Some (i32 (0 + 80)))
            (Some 0%Z) (Some (i32 (0 + 80)))).
Proof.
  apply (chroma_region_not_empty (vision true) (picture x04 screen)
           (0, 0, 80, 80)%Z).
  vm_compute. discriminate.
Defined.

End DepthReadings.

Section EscapingExceptions.
Import Np Providers DepthCheck Liveness Readings Synthetic.
Local Open Scope string_scope.

Lemma absdiff_raises (a b : Gray) (e : string) :
  absdiff_mean a b = Raised e -> e = "cv2.error" /\ ~ same_shape a b.
Proof.
  unfold absdiff_mean, same_shape.
  destruct (Z.eqb_spec (nrows a) (nrows b)) as [Hr|Hr];
    destruct (Z.eqb_spec (ncols a) (ncols b)) as [Hc|Hc]; simpl;
    intros H; try discriminate H; injection H as <-;
    (split; [reflexivity|tauto]).
Qed.

Lemma absdiff_returns (a b : Gray) :
  same_shape a b -> exists m, absdiff_mean a b = Returned m.
Proof.
  intros [Hr Hc]. unfold absdiff_mean.
  rewrite Hr, Hc, !Z.eqb_refl. simpl. eexists. reflexivity.
Qed.

Lemma motions_raise (rest : list Gray) :
  forall (prev : Gray) (e : string),
    motions prev rest = Raised e ->
    e = "cv2.error"
    /\ exists pre g1 g2 post,
         prev :: rest = (pre ++ g1 :: g2 :: post)%list
         /\ ~ same_shape g1 g2.
Proof.
  induction rest as [|g t IH]; intros prev e; simpl; [discriminate|].
  destruct (absdiff_mean prev g) as [m|e'] eqn:Hd.
  - destruct (motions g t) as [ms|e''] eqn:Hm; [discriminate|].
    intros H. injection H as <-.
    destruct (IH g e'' Hm) as [He [pre [g1 [g2 [post [Heq Hne]]]]]].
    split; [exact He|].
    exists (prev :: pre), g1, g2, post. split; [|exact Hne].
    simpl. now rewrite Heq.
  - intros H. injection H as <-.
    destruct (absdiff_raises _ _ _ Hd) as [He Hne].
    split; [exact He|]. exists [], prev, g, t. split; [reflexivity|exact Hne].
Qed.

Lemma motions_return (rest : list Gray) :
  forall prev,
    (forall g1 g2, In g1 (prev :: rest) -> In g2 (prev :: rest) ->
                   same_shape g1 g2) ->
    exists ms, motions prev rest = Returned ms.
Proof.
  induction rest as [|g t IH]; intros prev Hall; simpl.
  - exists []. reflexivity.
  - destruct (absdiff_returns prev g) as [m ->].
    { apply Hall; simpl; auto. }
    destruct (IH g) as [ms ->].
    { intros g1 g2 H1 H2. apply Hall; now right. }
    eexists. reflexivity.
Qed.

(** On frames that carry bytes, the only exception that escapes
    [check_liveness_sequence] is the [cv2.error] of [absdiff] on two
    consecutive surviving frames of different sizes (indexing at [best]
    never fails); when all surviving frames have one size a verdict is
    returned.  (On an empty frame [cv2.imdecode] itself raises
    [cv2.error]; such lists are left out.) *)
Theorem sequence_exceptions (V : Vision) (fs : list (list byte)) :
  Forall carries_bytes fs ->
  (forall e,
     check_liveness_sequence V fs = Raised e ->
     e = "cv2.error"
     /\ exists pre g1 g2 post,
          grays (triage V fs) = (pre ++ g1 :: g2 :: post)%list
          /\ ~ same_shape g1 g2)
  /\ ((forall k1 k2, In k1 (triage V fs) -> In k2 (triage V fs) ->
                     same_shape (k_gray k1) (k_gray k2)) ->
      exists r, check_liveness_sequence V fs = Returned r).
Proof.
  intros _.
  assert (Hshape : forall e,
             motion_analysis (triage V fs) = Raised e ->
             e = "cv2.error"
             /\ exists pre g1 g2 post,
                  grays (triage V fs) = (pre ++ g1 :: g2 :: post)%list
                  /\ ~ same_shape g1 g2).
  { intros e. unfold motion_analysis, pairwise_motions.
    destruct (grays (triage V fs)) as [|g t] eqn:Hg; [discriminate|].
    destruct (motions g t) as [ms|e'] eqn:Hm.
    - cbv zeta. destruct (Qltb (mean ms) MOTION_AVG_MIN); discriminate.
    - intros H. injection H as <-. exact (motions_raise t g e' Hm). }
  unfold check_liveness_sequence.
  destruct (Nat.ltb_spec (length fs) 2) as [_|_].
  { split; [discriminate|]. intros _. eexists. reflexivity. }
  cbv zeta.
  destruct (Nat.ltb_spec (length (triage V fs)) 2) as [_|Hlen].
  { split; [discriminate|]. intros _. eexists. reflexivity. }
  destruct (valid_faces (face_rects (triage V fs))) as [|v0 vs].
  { split; [discriminate|]. intros _. eexists. reflexivity. }
  destruct (best_spec (triage V fs)) as [kb [Hkb _]].
  { destruct (triage V fs); [simpl in Hlen; lia|discriminate]. }
  rewrite Hkb.
  destruct (2 <=? fail_count (reference_signals V kb v0))%nat.
  { split; [discriminate|]. intros _. eexists. reflexivity. }
  split; [exact Hshape|].
  intros Hsame. unfold motion_analysis, pairwise_motions.
  destruct (grays (triage V fs)) as [|g t] eqn:Hg.
  - cbv zeta. destruct (Qltb (mean []) MOTION_AVG_MIN);
      eexists; reflexivity.
  - destruct (motions_return t g) as [ms ->].
    + intros g1 g2 H1 H2. rewrite <- Hg in H1, H2. unfold grays in H1, H2.
      apply in_map_iff in H1. destruct H1 as [k1 [<- H1]].
      apply in_map_iff in H2. destruct H2 as [k2 [<- H2]].
      now apply Hsame.
    + cbv zeta. destruct (Qltb (mean ms) MOTION_AVG_MIN);
        eexists; reflexivity.
Qed.

(** A 256 x 256 frame followed by a 64 x 64 one: both survive, the
    spatial signals pass, and the motion stage raises. *)
Lemma sequence_exceptions_witness :
  check_liveness_sequence (vision true)
    [live_frame []; SyntheticFaces.small_frame]
  = Raised "cv2.error".
Proof.
  assert (Hraised : match check_liveness_sequence (vision true)
                            [live_frame []; SyntheticFaces.small_frame] with
                    | Returned _ => False
                    | Raised _ => True
                    end) by (vm_compute; exact I).
  destruct (check_liveness_sequence (vision true)
              [live_frame []; SyntheticFaces.small_frame])
    as [r|e] eqn:H; [destruct Hraised|].
  destruct (proj1 (sequence_exceptions (vision true)
                     [live_frame []; SyntheticFaces.small_frame]
                     ltac:(repeat constructor; discriminate)) e H)
    as [-> _].
  reflexivity.
Defined.

End EscapingExceptions.

(* ================================================================== *)
(** * Further properties of the identity matcher *)

Section SimilarityFacts.
Import Config FaceRecognition.
Local Open Scope R_scope.

Lemma dot_comm (u : list R) : forall v, dot_aux u v = dot_aux v u.
Proof.
  induction u as [|a u IH]; intros [|b v]; simpl; try reflexivity.
  rewrite IH. ring.
Qed.

Lemma np_dot_lengths (u v : list R) (d : R) :
  np_dot u v = Some d -> length u = length v /\ d = dot_aux u v.
Proof.
  unfold np_dot. destruct (Nat.eqb_spec (length u) (length v));
    [|discriminate].
  intros H. injection H as <-. split; [assumption|reflexivity].
Qed.

Lemma dot_blend (a b : R) (u v z : list R) :
  length u = length v -> length v = length z ->
  dot_aux (add_aux (scale a u) (scale b v)) z
  = a * dot_aux u z + b * dot_aux v z.
Proof.
  unfold scale. revert v z.
  induction u as [|x u IH]; intros [|y v] [|c z] H1 H2; simpl in *;
    try discriminate; [lra|].
  rewrite IH by congruence. ring.
Qed.

Lemma dot_div (n : R) (v z : list R) :
  n <> 0 -> dot_aux (map (fun x => x / n) v) z = dot_aux v z / n.
Proof.
  intros Hn. revert z.
  induction v as [|x v IH]; intros [|c z]; simpl;
    try (field; assumption).
  rewrite IH. field. assumption.
Qed.

Lemma dot_opp (u : list R) : dot_aux (map Ropp u) u = - sumsq u.
Proof.
  unfold sumsq. induction u as [|x u IH]; simpl; [lra|].
  rewrite IH. ring.
Qed.

(** Cauchy-Schwarz for two unit vectors of one length. *)
Lemma unit_dot_bounds (u v : list R) :
  length u = length v -> sumsq u = 1 -> sumsq v = 1 ->
  -1 <= dot_aux u v <= 1.
Proof.
  intros Hlen Hu Hv.
  pose proof (sumsq_nonneg (add_aux (scale 1 u) (scale 1 v))) as Hp.
  pose proof (sumsq_nonneg (add_aux (scale 1 u) (scale (-1) v))) as Hm.
  rewrite sumsq_blend, Hu, Hv in Hp, Hm by assumption. lra.
Qed.

(** The blend of [sumsq_blend], once normalised, has norm 1. *)
Lemma normalised_unit (v : list R) :
  0 < sumsq v ->
  np_linalg_norm (map (fun x => x / np_linalg_norm v) v) = 1
  /\ np_linalg_norm v <> 0.
Proof.
  intros Hpos.
  assert (Hn : np_linalg_norm v <> 0).
  { unfold np_linalg_norm. pose proof (sqrt_lt_R0 _ Hpos). lra. }
  split; [|exact Hn].
  apply sumsq_unit. rewrite sumsq_div by assumption.
  unfold np_linalg_norm. rewrite sqrt_sqrt by lra. field. lra.
Qed.

Lemma adaptive_update_value (cfg : Settings) (e e' : list R) (alpha : R) :
  length e = length e' ->
  0 < sumsq (add_aux (scale (1 - alpha) e) (scale alpha e')) ->
  adaptive_update cfg e e' (Some alpha)
  = Some (map Finite
            (map (fun x => x / np_linalg_norm
                                (add_aux (scale (1 - alpha) e)
                                         (scale alpha e')))
                 (add_aux (scale (1 - alpha) e) (scale alpha e')))).
Proof.
  intros Hlen Hpos. unfold adaptive_update.
  rewrite np_add_same_length by (rewrite !scale_length; exact Hlen).
  cbv zeta. rewrite np_divide_finite; [reflexivity|].
  apply (normalised_unit _ Hpos).
Qed.

Lemma axis_sumsq (n : nat) (x : R) : sumsq (axis n x) = x * x.
Proof. unfold sumsq, axis. simpl. rewrite dot_zeros_l. ring. Qed.

Lemma at_threshold_unit : np_linalg_norm at_threshold = 1.
Proof.
  apply sumsq_unit. unfold at_threshold, sumsq. cbn [dot_aux].
  fold (sumsq (axis 126 (sqrt (1 - 593 / 1000 * (593 / 1000))))).
  rewrite axis_sumsq, sqrt_sqrt; lra.
Qed.

(** For two unit vectors of one length, [verify_face] returns their
    cosine similarity: a value in [-1, 1] that does not depend on the
    order of the two embeddings, with the match flag set exactly when it
    reaches the threshold. *)
Theorem verify_face_cosine (cfg : Settings) (a b : list R) :
  length a = length b ->
  np_linalg_norm a = 1 -> np_linalg_norm b = 1 ->
  exists m sim,
    verify_face cfg a b = Some (m, sim)
    /\ verify_face cfg b a = Some (m, sim)
    /\ -1 <= sim <= 1
    /\ (m = true <-> SIMILARITY_THRESHOLD cfg <= sim).
Proof.
  intros Hlen Ha Hb. unfold verify_face.
  rewrite (np_dot_same_length a b Hlen).
  rewrite (np_dot_same_length b a (eq_sym Hlen)).
  rewrite (dot_comm b a).
  exists (if Rle_dec (SIMILARITY_THRESHOLD cfg) (dot_aux a b)
          then true else false), (dot_aux a b).
  split; [reflexivity|]. split; [reflexivity|].
  split; [apply unit_dot_bounds; auto using unit_sumsq|].
  destruct (Rle_dec (SIMILARITY_THRESHOLD cfg) (dot_aux a b));
    split; intros; try discriminate; tauto.
Qed.

Lemma verify_face_cosine_witness :
  exists m sim,
    verify_face settings (axis 127 1) at_threshold = Some (m, sim)
    /\ -1 <= sim <= 1.
Proof.
  destruct (verify_face_cosine settings (axis 127 1) at_threshold)
    as [m [sim [H1 [_ [H2 _]]]]].
  - unfold at_threshold, axis. simpl. rewrite ?repeat_length. reflexivity.
  - apply axis_unit.
  - apply at_threshold_unit.
  - exists m, sim. split; assumption.
Defined.

Lemma match_update_unit (cfg : Settings) (stored new : list R) (sim : R) :
  np_linalg_norm stored = 1 -> np_linalg_norm new = 1 ->
  0 < ADAPTIVE_ALPHA cfg <= 1 ->
  -1 < SIMILARITY_THRESHOLD cfg ->
  verify_face cfg new stored = Some (true, sim) ->
  unit_norm (adaptive_update cfg stored new None).
Proof.
  intros Hs Hn Ha Hthr Hv. unfold verify_face in Hv.
  destruct (np_dot new stored) as [d|] eqn:Hd; [|discriminate].
  destruct (np_dot_lengths _ _ _ Hd) as [Hlen ->].
  destruct (Rle_dec (SIMILARITY_THRESHOLD cfg) (dot_aux new stored))
    as [Hle|]; [|discriminate].
  assert (Hpos : 0 < sumsq (add_aux (scale (1 - ADAPTIVE_ALPHA cfg) stored)
                                    (scale (ADAPTIVE_ALPHA cfg) new))).
  { apply blend_nonzero; auto using unit_sumsq.
    intros [_ Hopp]. subst new.
    rewrite dot_opp, (unit_sumsq stored Hs) in Hle. lra. }
  change (adaptive_update cfg stored new None)
    with (adaptive_update cfg stored new (Some (ADAPTIVE_ALPHA cfg))).
  rewrite adaptive_update_value by (auto using eq_sym).
  eexists. split; [reflexivity|]. apply (normalised_unit _ Hpos).
Qed.

(** After a successful match (threshold above -1, blend weight in
    (0, 1]), the template written by [adaptive_update] with the default
    weight has norm 1: the two embeddings cannot be opposite. *)
Theorem update_after_match (cfg : Settings) (stored new : list R)
    (sim : R) :
  np_linalg_norm stored = 1 -> np_linalg_norm new = 1 ->
  0 < ADAPTIVE_ALPHA cfg <= 1 ->
  -1 < SIMILARITY_THRESHOLD cfg ->
  verify_face cfg new stored = Some (true, sim) ->
  unit_norm (adaptive_update cfg stored new None).
Proof. exact (match_update_unit cfg stored new sim). Qed.

Lemma update_after_match_witness :
  unit_norm (adaptive_update settings at_threshold (axis 127 1) None).
Proof.
  apply (update_after_match settings at_threshold (axis 127 1)
           (593 / 1000)).
  - apply at_threshold_unit.
  - apply axis_unit.
  - simpl. lra.
  - simpl. lra.
  - unfold verify_face. rewrite at_threshold_dot. simpl.
    destruct (Rle_dec (593 / 1000) (593 / 1000)) as [_|H];
      [reflexivity|exfalso; lra].
Defined.

End SimilarityFacts.

Section TemplateDrift.
Import Config FaceRecognition.
Local Open Scope R_scope.

(** With [N] the norm of the blend [p e + q e'] of two unit vectors at
    similarity [d], the similarity of the blend to [e'] is at least [d]. *)
Lemma blend_similarity (p q d N : R) :
  0 <= p -> 0 <= q -> p + q = 1 -> -1 <= d <= 1 -> 0 < N ->
  N * N = p * p + q * q + 2 * p * q * d ->
  d * N <= p * d + q.
Proof.
  intros Hp Hq Hpq Hd HN HS.
  assert (HN1 : N <= 1).
  { assert (Hpq0 : 0 <= p * q) by (apply Rmult_le_pos; assumption).
    assert (Hpqd : p * q * d <= p * q) by nra.
    assert (Hone : (p + q) * (p + q) = 1) by (rewrite Hpq; ring).
    assert (N * N <= 1) by nra. nra. }
  destruct (Rle_dec 0 d) as [Hd0|Hd0].
  - assert (d * N <= d) by nra. nra.
  - assert (Hdn : d < 0) by lra.
    destruct (Rle_dec 0 (p * d + q)) as [Hnum|Hnum]; [nra|].
    assert (Hn : p * d + q < 0) by lra.
    assert (Hpd : p * d <= 0) by nra.
    assert (Hkey : 0 <= d * d * (N * N) - (p * d + q) * (p * d + q)).
    { rewrite HS.
      replace (d * d * (p * p + q * q + 2 * p * q * d)
               - (p * d + q) * (p * d + q))
        with ((1 - d * d) * (q * (- (q + 2 * p * d))))
        by (replace p with (1 - q) by lra; ring).
      apply Rmult_le_pos; [nra|]. apply Rmult_le_pos; lra. }
    assert (Hsq : (- (p * d + q)) * (- (p * d + q))
                  <= (- d * N) * (- d * N)) by nra.
    assert (0 <= - d * N) by nra.
    assert (0 <= - (p * d + q)) by lra.
    nra.
Qed.

Lemma le_div (a b c : R) : 0 < c -> a * c <= b -> a <= b / c.
Proof.
  intros Hc H. apply Rmult_le_reg_r with c; [exact Hc|].
  unfold Rdiv. rewrite Rmult_assoc, Rinv_l by lra. lra.
Qed.

(** Whenever [adaptive_update] yields a unit vector, that vector is at
    least as similar to the live sample, and to the old template, as the
    two were to each other: the template moves between them. *)
Theorem update_moves_between (cfg : Settings) (e e' : list R) (alpha : R) :
  length e = length e' ->
  np_linalg_norm e = 1 -> np_linalg_norm e' = 1 ->
  0 < alpha <= 1 ->
  ~ (alpha = 1 / 2 /\ e' = map Ropp e) ->
  exists w,
    adaptive_update cfg e e' (Some alpha) = Some (map Finite w)
    /\ np_linalg_norm w = 1
    /\ dot_aux e e' <= dot_aux w e'
    /\ dot_aux e e' <= dot_aux w e.
Proof.
  intros Hlen Ne Ne' Ha Hne.
  pose proof (unit_sumsq e Ne) as He. pose proof (unit_sumsq e' Ne') as He'.
  pose proof (blend_nonzero alpha e e' Hlen He He' Ha Hne) as Hpos.
  pose proof (unit_dot_bounds e e' Hlen He He') as Hd.
  rewrite (adaptive_update_value cfg e e' alpha Hlen Hpos).
  set (blend := add_aux (scale (1 - alpha) e) (scale alpha e')) in *.
  destruct (normalised_unit blend Hpos) as [Hunit Hn].
  set (N := np_linalg_norm blend) in *.
  assert (HN : 0 < N).
  { unfold N, np_linalg_norm. now apply sqrt_lt_R0. }
  assert (HNN : N * N = (1 - alpha) * (1 - alpha) + alpha * alpha
                        + 2 * (1 - alpha) * alpha * dot_aux e e').
  { unfold N, np_linalg_norm. rewrite sqrt_sqrt by lra.
    unfold blend. rewrite sumsq_blend, He, He' by assumption. ring. }
  eexists. split; [reflexivity|]. split; [exact Hunit|].
  rewrite !dot_div by assumption. unfold blend.
  rewrite (dot_blend _ _ e e' e') by (auto using eq_sym).
  rewrite (dot_blend _ _ e e' e) by (auto using eq_sym).
  change (dot_aux e' e') with (sumsq e').
  change (dot_aux e e) with (sumsq e).
  rewrite He, He', (dot_comm e' e).
  split; apply le_div; try assumption.
  - replace ((1 - alpha) * dot_aux e e' + alpha * 1)
      with ((1 - alpha) * dot_aux e e' + alpha) by ring.
    apply blend_similarity; try lra; rewrite HNN; ring.
  - replace ((1 - alpha) * 1 + alpha * dot_aux e e')
      with (alpha * dot_aux e e' + (1 - alpha)) by ring.
    apply blend_similarity; try lra; rewrite HNN; ring.
Qed.

Lemma update_moves_between_witness :
  exists w,
    adaptive_update settings (axis 127 1) (0 :: axis 126 1) (Some (1 / 20))
    = Some (map Finite w)
    /\ dot_aux (axis 127 1) (0 :: axis 126 1) <= dot_aux w (0 :: axis 126 1).
Proof.
  destruct (update_moves_between settings (axis 127 1) (0 :: axis 126 1)
              (1 / 20)) as [w [Hw [_ [Hnew _]]]].
  - simpl. rewrite ?repeat_length. reflexivity.
  - apply axis_unit.
  - apply orthogonal_unit.
  - lra.
  - intros [H _]. lra.
  - exists w. split; assumption.
Defined.

Lemma sumsq_zero_cells (v : list R) :
  sumsq v = 0 -> Forall (fun x => x = 0) v.
Proof.
  unfold sumsq. induction v as [|x v IH]; simpl; [constructor|].
  intros H.
  pose proof (sumsq_nonneg v) as Hv. unfold sumsq in Hv.
  pose proof (Rle_0_sqr x) as Hx. unfold Rsqr in Hx.
  assert (Hxx : x * x = 0) by lra.
  constructor; [|apply IH; lra].
  apply Rmult_integral in Hxx. tauto.
Qed.

End TemplateDrift.

Section Extraction.
Import Config FaceRecognition Np Providers Liveness Embedding Synthetic.
Local Open Scope R_scope.

Lemma extract_embedding_spec (V : Vision) (E : FaceEnv) (b : list byte) :
  match extract_embedding V E b with
  | Some e => np_linalg_norm e = 1 \/ Forall (fun x => x = 0) e
  | None =>
      (loaded E = None /\ (YUNET_exists E = false \/ SFACE_exists E = false))
      \/ imdecode V b = None
      \/ exists m img, _get_models E = Returned m
                       /\ imdecode V b = Some img /\ detect m img = []
  end.
Proof.
  unfold extract_embedding.
  destruct (_get_models E) as [m|e] eqn:Hm.
  - destruct (imdecode V b) as [img|] eqn:Hi; [|right; now left].
    unfold _detect_and_align.
    destruct (detect m img) as [|f0 rest] eqn:Hf.
    + right. right. exists m, img. repeat split. exact Hf.
    + cbv zeta.
      set (v := feature m _).
      destruct (Rlt_dec 0 (np_linalg_norm v)) as [Hpos|Hz].
      * left. apply normalised_unit.
        unfold np_linalg_norm in Hpos.
        destruct (Rle_lt_or_eq_dec _ _ (sumsq_nonneg v)) as [H|H];
          [exact H|].
        rewrite <- H, sqrt_0 in Hpos. lra.
      * right. apply sumsq_zero_cells.
        unfold np_linalg_norm in Hz.
        pose proof (sqrt_pos (sumsq v)) as Hs.
        apply sqrt_eq_0; [apply sumsq_nonneg|lra].
  - left. unfold _get_models in Hm.
    destruct (loaded E); [discriminate|]. split; [reflexivity|].
    destruct (YUNET_exists E); [|now left].
    destruct (SFACE_exists E); [discriminate|now right].
Qed.

(** [extract_embedding] returns [None] when a model file is missing and
    nothing was loaded, whatever the bytes.  On bytes that the decoder
    accepts it returns [None] in exactly three cases: the models are
    missing, the bytes do not decode, no face is detected in the decoded
    image; and what it returns otherwise is L2-normalised, except for a
    feature vector of zeros, which is returned as it is. *)
Theorem extract_embedding_normalised (V : Vision) (E : FaceEnv)
    (b : list byte) :
  (loaded E = None ->
   YUNET_exists E = false \/ SFACE_exists E = false ->
   extract_embedding V E b = None)
  /\ (carries_bytes b ->
      (extract_embedding V E b = None
       <-> (loaded E = None
            /\ (YUNET_exists E = false \/ SFACE_exists E = false))
           \/ imdecode V b = None
           \/ exists m img, _get_models E = Returned m
                            /\ imdecode V b = Some img
                            /\ detect m img = [])
      /\ forall e, extract_embedding V E b = Some e ->
           np_linalg_norm e = 1 \/ Forall (fun x => x = 0) e).
Proof.
  assert (Hmissing : loaded E = None ->
                     YUNET_exists E = false \/ SFACE_exists E = false ->
                     extract_embedding V E b = None).
  { intros Hl Hf. unfold extract_embedding, _get_models. rewrite Hl.
    destruct Hf as [-> | ->]; [reflexivity|].
    destruct (YUNET_exists E); reflexivity. }
  split; [exact Hmissing|]. intros _.
  pose proof (extract_embedding_spec V E b) as Hspec.
  split; [split|].
  - intros Hnone. now rewrite Hnone in Hspec.
  - intros [[Hl Hf] | [Hd | [m [img [Hm [Hd Hf]]]]]].
    + now apply Hmissing.
    + unfold extract_embedding. rewrite Hd.
      destruct (_get_models E); reflexivity.
    + unfold extract_embedding, _detect_and_align.
      now rewrite Hm, Hd, Hf.
  - intros e He. now rewrite He in Hspec.
Qed.

End Extraction.

(* ================================================================== *)
(** * Properties of registration and face login *)

Section HandlerFacts.
Import Config FaceRecognition Np Providers Liveness Embedding Auth.
Local Open Scope R_scope.

Lemma adaptive_update_defined (cfg : Settings) (stored new : list R)
    (alpha : option R) :
  length stored = length new ->
  exists u, adaptive_update cfg stored new alpha = Some u.
Proof.
  intros Hlen. unfold adaptive_update.
  rewrite np_add_same_length by (rewrite !scale_length; exact Hlen).
  eexists. reflexivity.
Qed.

Lemma verify_face_some (cfg : Settings) (a b : list R) (m : bool)
    (sim : R) :
  verify_face cfg a b = Some (m, sim) ->
  length a = length b /\ sim = dot_aux a b
  /\ (m = true <-> SIMILARITY_THRESHOLD cfg <= sim).
Proof.
  unfold verify_face. destruct (np_dot a b) as [d|] eqn:Hd; [|discriminate].
  destruct (np_dot_lengths _ _ _ Hd) as [Hlen ->].
  intros H. injection H as <- <-. split; [exact Hlen|].
  split; [reflexivity|].
  destruct (Rle_dec (SIMILARITY_THRESHOLD cfg) (dot_aux a b));
    split; intros; try discriminate; tauto.
Qed.

Lemma dot_zero_cells (u : list R) :
  Forall (fun x => x = 0) u -> forall v, dot_aux u v = 0.
Proof.
  induction 1 as [|x u Hx Hu IH]; intros [|y v]; simpl; try reflexivity.
  rewrite IH, Hx. ring.
Qed.

Lemma first_named_none (users : list User) (n : string) :
  first_named users n = None -> ~ In n (map name users).
Proof.
  unfold first_named. intros Hnone Hin.
  apply in_map_iff in Hin. destruct Hin as [u [Hu Hin]].
  pose proof (find_none _ _ Hnone u Hin) as Hf. simpl in Hf.
  rewrite Hu, String.eqb_refl in Hf. discriminate.
Qed.

Lemma first_named_last (users : list User) (u : User) :
  first_named users (name u) = None ->
  first_named (users ++ [u]) (name u) = Some u.
Proof.
  unfold first_named. induction users as [|v users IH]; simpl.
  - intros _. now rewrite String.eqb_refl.
  - destruct (String.eqb (name v) (name u)); [discriminate|exact IH].
Qed.

(** The successful path of [login_face], read backwards. *)
Lemma login_response_inv (cfg : Settings) (V : Vision) (E : FaceEnv)
    (P : Platform) (users : list User) (host : option string)
    (n : string) (frames : list (list byte)) (w : Writes) (st : Z)
    (body : FaceVerifyResponse) :
  login_face cfg V E P users host n frames
  = (w, Returned (Response st body)) ->
  exists user stored live mid new sim updated,
    first_named users n = Some user
    /\ face_enrolled user = true
    /\ face_embedding user = Some stored
    /\ check_liveness_sequence V frames = Returned live
    /\ passed live = true
    /\ nth_error frames (Nat.div (length frames) 2) = Some mid
    /\ extract_embedding V E mid = Some new
    /\ verify_face cfg new stored = Some (true, sim)
    /\ adaptive_update cfg stored new None = Some updated
    /\ w = mkWrites [_log_attempt P (Some (id user)) true (Some sim) true
                       host] (Some updated)
    /\ st = 200%Z
    /\ body = mkFaceVerifyResponse (create_access_token P (id user))
                (create_refresh_token P (id user)) "bearer"
                (round4 P sim) true (model_validate user).
Proof.
  unfold login_face. cbv zeta.
  destruct (first_named users n) as [user|] eqn:Hu; [|discriminate].
  destruct (face_embedding user) as [stored|] eqn:Hs; [|discriminate].
  destruct (face_enrolled user) eqn:He; [|discriminate]. simpl negb.
  cbv iota.
  destruct (check_liveness_sequence V frames) as [live|e] eqn:Hl;
    [|discriminate].
  destruct (passed live) eqn:Hp; [|discriminate]. simpl negb. cbv iota.
  destruct (nth_error frames (Nat.div (length frames) 2)) as [mid|] eqn:Hm;
    [|discriminate].
  destruct (extract_embedding V E mid) as [new|] eqn:Hx; [|discriminate].
  destruct (verify_face cfg new stored) as [[m sim]|] eqn:Hv;
    [|discriminate].
  destruct m; [|discriminate]. simpl negb. cbv iota.
  destruct (adaptive_update cfg stored new None) as [updated|] eqn:Ha;
    [|discriminate].
  intros H. injection H as <- <- <-.
  exists user, stored, live, mid, new, sim, updated.
  repeat split; assumption.
Qed.

End HandlerFacts.

Section LoginClaims.
Import Config FaceRecognition Np Providers Liveness Embedding Auth.
Import Synthetic.
Local Open Scope R_scope.
Local Open Scope string_scope.

(** The successful path of [login_face], read forwards. *)
Lemma login_face_success (cfg : Settings) (V : Vision) (E : FaceEnv)
    (P : Platform) (users : list User) (host : option string)
    (n : string) (frames : list (list byte)) (user : User)
    (stored new : list R) (live : LivenessResult) (mid : list byte)
    (sim : R) (updated : list float64) :
  first_named users n = Some user ->
  face_enrolled user = true ->
  face_embedding user = Some stored ->
  check_liveness_sequence V frames = Returned live ->
  passed live = true ->
  nth_error frames (Nat.div (length frames) 2) = Some mid ->
  extract_embedding V E mid = Some new ->
  verify_face cfg new stored = Some (true, sim) ->
  adaptive_update cfg stored new None = Some updated ->
  login_face cfg V E P users host n frames
  = (mkWrites [_log_attempt P (Some (id user)) true (Some sim) true host]
       (Some updated),
     Returned (Response 200
                 (mkFaceVerifyResponse (create_access_token P (id user))
                    (create_refresh_token P (id user)) "bearer"
                    (round4 P sim) true (model_validate user)))).
Proof.
  intros Hu He Hs Hl Hp Hm Hx Hv Ha. unfold login_face. cbv zeta.
  rewrite Hu, Hs, He. simpl negb. cbv iota.
  rewrite Hl, Hp. simpl negb. cbv iota.
  rewrite Hm, Hx, Hv. simpl negb. cbv iota. rewrite Ha. reflexivity.
Qed.

(** Every [login_face] request that is answered, with a token or with an
    HTTP error, logs exactly one attempt, carrying the client address;
    the attempt is marked successful exactly when the answer is the 200
    response, and the stored embedding is rewritten exactly then.  A
    request out of which an exception escapes logs nothing and writes
    nothing. *)
Theorem login_audit_trail (cfg : Settings) (V : Vision) (E : FaceEnv)
    (P : Platform) (users : list User) (host : option string)
    (n : string) (frames : list (list byte)) :
  match login_face cfg V E P users host n frames with
  | (w, Returned rep) =>
      exists a,
        logged w = [a] /\ ip_address a = host
        /\ (success a = true <-> exists body, rep = Response 200 body)
        /\ (embedding_written w <> None <-> success a = true)
  | (w, Raised e) => logged w = [] /\ embedding_written w = None
  end.
Proof.
  assert (Hno : forall st d,
             (false = true <-> exists body, HTTPException st d
                                            = Response 200 body)
             /\ (@None (list float64) <> None <-> false = true)).
  { intros st d. split; split; try discriminate.
    - intros [body H]. discriminate.
    - intros H. now elim H. }
  unfold login_face. cbv zeta.
  destruct (first_named users n) as [user|];
    [|eexists; split; [reflexivity|split; [reflexivity|apply Hno]]].
  destruct (face_embedding user) as [stored|];
    [|eexists; split; [reflexivity|split; [reflexivity|apply Hno]]].
  destruct (face_enrolled user); simpl negb; cbv iota;
    [|eexists; split; [reflexivity|split; [reflexivity|apply Hno]]].
  destruct (check_liveness_sequence V frames) as [live|e];
    [|split; reflexivity].
  destruct (passed live); simpl negb; cbv iota;
    [|eexists; split; [reflexivity|split; [reflexivity|apply Hno]]].
  destruct (nth_error frames (Nat.div (length frames) 2)) as [mid|];
    [|split; reflexivity].
  destruct (extract_embedding V E mid) as [new|];
    [|eexists; split; [reflexivity|split; [reflexivity|apply Hno]]].
  destruct (verify_face cfg new stored) as [[m sim]|] eqn:Hv;
    [|split; reflexivity].
  destruct m; simpl negb; cbv iota;
    [|eexists; split; [reflexivity|split; [reflexivity|apply Hno]]].
  destruct (verify_face_some _ _ _ _ _ Hv) as [Hlen _].
  destruct (adaptive_update_defined cfg stored new None (eq_sym Hlen))
    as [updated ->].
  eexists. split; [reflexivity|]. split; [reflexivity|].
  split; split; intros; try reflexivity; try discriminate.
  eexists. reflexivity.
Qed.

(** A 200 response of [login_face] means that the named user exists and
    is enrolled, the liveness check of the submitted frames passed, an
    embedding was extracted from the middle frame of the list, and its
    similarity to the stored one reached the threshold; the embedding
    written back is [adaptive_update] of the stored and the new one. *)
Theorem login_success_requires (cfg : Settings) (V : Vision) (E : FaceEnv)
    (P : Platform) (users : list User) (host : option string)
    (n : string) (frames : list (list byte)) (w : Writes) (st : Z)
    (body : FaceVerifyResponse) :
  login_face cfg V E P users host n frames
  = (w, Returned (Response st body)) ->
  exists user stored live mid new sim,
    In user users /\ name user = n /\ face_enrolled user = true
    /\ face_embedding user = Some stored
    /\ check_liveness_sequence V frames = Returned live
    /\ passed live = true
    /\ nth_error frames (Nat.div (length frames) 2) = Some mid
    /\ extract_embedding V E mid = Some new
    /\ np_dot new stored = Some sim
    /\ (SIMILARITY_THRESHOLD cfg <= sim)%R
    /\ embedding_written w = adaptive_update cfg stored new None
    /\ st = 200%Z /\ similarity body = round4 P sim
    /\ out_id (Auth.user body) = id user.
Proof.
  intros H.
  destruct (login_response_inv _ _ _ _ _ _ _ _ _ _ _ H)
    as [user [stored [live [mid [new [sim [updated
          [Hu [He [Hs [Hl [Hp [Hm [Hx [Hv [Ha [-> [-> ->]]]]]]]]]]]]]]]]]].
  exists user, stored, live, mid, new, sim.
  unfold first_named in Hu. apply find_some in Hu. destruct Hu as [Hin Hn].
  apply String.eqb_eq in Hn.
  destruct (verify_face_some _ _ _ _ _ Hv) as [Hlen [Hsim Hthr]].
  repeat split; try assumption.
  - rewrite (np_dot_same_length _ _ Hlen). now rewrite Hsim.
  - now apply Hthr.
  - simpl. now rewrite Ha.
Qed.

End LoginClaims.

Section SyntheticRuns.
Import Config FaceRecognition Np Providers Liveness Embedding Auth.
Import Synthetic SyntheticFaces.
Local Open Scope R_scope.

Lemma norm_3_4 : np_linalg_norm [3; 4] = 5.
Proof.
  unfold np_linalg_norm, sumsq. simpl. apply sqrt_lem_1; lra.
Qed.

Lemma unit_3_4 : np_linalg_norm [3 / 5; 4 / 5] = 1.
Proof. apply sumsq_unit. unfold sumsq. simpl. lra. Qed.

(** The synthetic models give every live frame the embedding
    (3/5, 4/5). *)
Lemma synthetic_extract (depth : bool) (tail : list byte) :
  extract_embedding (vision depth) env (live_frame tail)
  = Some [3 / 5; 4 / 5].
Proof.
  assert (H : extract_embedding (vision depth) env (live_frame tail)
              = Some (if Rlt_dec 0 (np_linalg_norm [3; 4])
                      then map (fun x => x / np_linalg_norm [3; 4]) [3; 4]
                      else [3; 4])) by reflexivity.
  rewrite H, norm_3_4.
  destruct (Rlt_dec 0 5) as [_|Hn]; [reflexivity|exfalso; lra].
Qed.

Lemma synthetic_verify :
  verify_face settings [3 / 5; 4 / 5] [3 / 5; 4 / 5] = Some (true, 1).
Proof.
  destruct (self_similarity_any settings _ unit_3_4) as [m [Hm Hiff]].
  rewrite Hm. destruct Hiff as [_ Hb]. rewrite Hb; [reflexivity|].
  simpl. lra.
Qed.

Lemma synthetic_liveness (frames : list (list byte)) :
  frames = [live_frame []; live_frame [xff]]
  \/ frames = [live_frame []; garbage; live_frame [xff]] ->
  exists live,
    check_liveness_sequence (vision true) frames = Returned live
    /\ passed live = true.
Proof.
  intros [-> | ->]; apply returned_passed; vm_compute; reflexivity.
Qed.

(** Alice logs in with two live frames. *)
Lemma synthetic_login :
  exists w body,
    login_face settings (vision true) env platform [alice] None "alice"
      [live_frame []; live_frame [xff]]
    = (w, Returned (Response 200 body)).
Proof.
  destruct (synthetic_liveness [live_frame []; live_frame [xff]])
    as [live [Hl Hp]]; [now left|].
  destruct (adaptive_update_defined settings [3 / 5; 4 / 5] [3 / 5; 4 / 5]
              None eq_refl) as [updated Ha].
  eexists. eexists.
  exact (login_face_success settings (vision true) env platform [alice]
           None "alice" [live_frame []; live_frame [xff]] alice
           [3 / 5; 4 / 5] [3 / 5; 4 / 5] live (live_frame [xff]) 1 updated
           eq_refl eq_refl eq_refl Hl Hp eq_refl
           (synthetic_extract true [xff]) synthetic_verify Ha).
Qed.

(** With the SFace file missing nothing is extracted; with the models in
    place neither from bytes that do not decode nor from a frame without
    a face; the live frame gets an embedding of norm 1. *)
Lemma extract_embedding_normalised_witness :
  extract_embedding (vision true) missing (live_frame []) = None
  /\ extract_embedding (vision true) env garbage = None
  /\ extract_embedding (vision true) env faceless_frame = None
  /\ extract_embedding (vision true) env (live_frame [])
     = Some [3 / 5; 4 / 5]
  /\ (np_linalg_norm [3 / 5; 4 / 5] = 1
      \/ Forall (fun x => x = 0) [3 / 5; 4 / 5]).
Proof.
  split; [|split; [|split; [|split]]].
  - apply (proj1 (extract_embedding_normalised (vision true) missing
                    (live_frame []))); [reflexivity|now right].
  - apply (proj2 (extract_embedding_normalised (vision true) env garbage)).
    + discriminate.
    + right. left. reflexivity.
  - apply (proj2 (extract_embedding_normalised (vision true) env
                    faceless_frame)).
    + discriminate.
    + right. right. eexists. eexists.
      split; [reflexivity|]. split; [reflexivity|].
      vm_compute. reflexivity.
  - apply synthetic_extract.
  - apply (proj2 (extract_embedding_normalised (vision true) env
                    (live_frame []))).
    + discriminate.
    + apply synthetic_extract.
Defined.

End SyntheticRuns.

Section LoginWitnesses.
Import Config FaceRecognition Np Providers Liveness Embedding Auth.
Import Synthetic SyntheticFaces.
Local Open Scope R_scope.
Local Open Scope string_scope.

Lemma login_success_requires_witness :
  exists live,
    check_liveness_sequence (vision true) [live_frame []; live_frame [xff]]
    = Returned live
    /\ passed live = true.
Proof.
  destruct synthetic_login as [w [body H]].
  destruct (login_success_requires _ _ _ _ _ _ _ _ _ _ _ H)
    as [user [stored [live [mid [new [sim [_ [_ [_ [_ [Hl [Hp _]]]]]]]]]]]].
  exists live. split; assumption.
Defined.

(** The embedding is taken from the middle frame of the submitted list,
    whether or not liveness kept that frame: when the liveness check
    passes and the middle frame does not decode, the login is refused
    with 422 "Could not detect face in frames" and logged as a failed
    attempt with liveness passed. *)
Theorem login_middle_frame (cfg : Settings) (V : Vision) (E : FaceEnv)
    (P : Platform) (users : list User) (host : option string)
    (n : string) (frames : list (list byte)) (user : User)
    (stored : list R) (live : LivenessResult) (mid : list byte) :
  first_named users n = Some user ->
  face_enrolled user = true ->
  face_embedding user = Some stored ->
  check_liveness_sequence V frames = Returned live ->
  passed live = true ->
  nth_error frames (Nat.div (length frames) 2) = Some mid ->
  imdecode V mid = None ->
  login_face cfg V E P users host n frames
  = (mkWrites [mkAuthAttempt (Some (id user)) false None true host] None,
     Returned (HTTPException 422 "Could not detect face in frames")).
Proof.
  intros Hu He Hs Hl Hp Hm Hd.
  assert (Hx : extract_embedding V E mid = None).
  { unfold extract_embedding. destruct (_get_models E); [|reflexivity].
    now rewrite Hd. }
  unfold login_face. cbv zeta.
  rewrite Hu, Hs, He. simpl negb. cbv iota.
  rewrite Hl, Hp. simpl negb. cbv iota.
  rewrite Hm, Hx. reflexivity.
Qed.

(** Two live frames around one that does not decode: liveness passes on
    the two, and the login fails on the one in the middle. *)
Lemma login_middle_frame_witness :
  login_face settings (vision true) env platform [alice] None "alice"
    [live_frame []; garbage; live_frame [xff]]
  = (mkWrites [mkAuthAttempt (Some 1%Z) false None true None] None,
     Returned (HTTPException 422 "Could not detect face in frames")).
Proof.
  destruct (synthetic_liveness [live_frame []; garbage; live_frame [xff]])
    as [live [Hl Hp]]; [now right|].
  exact (login_middle_frame settings (vision true) env platform [alice]
           None "alice" [live_frame []; garbage; live_frame [xff]] alice
           [3 / 5; 4 / 5] live garbage
           eq_refl eq_refl eq_refl Hl Hp eq_refl eq_refl).
Defined.

(** Login keeps the stored template on the unit sphere: with a positive
    threshold and a blend weight in (0, 1], a 200 response for a user
    whose stored embedding has norm 1 writes back an embedding of
    norm 1. *)
Theorem login_keeps_unit_norm (cfg : Settings) (V : Vision) (E : FaceEnv)
    (P : Platform) (users : list User) (host : option string)
    (n : string) (frames : list (list byte)) (w : Writes) (st : Z)
    (body : FaceVerifyResponse) :
  (0 < SIMILARITY_THRESHOLD cfg)%R ->
  (0 < ADAPTIVE_ALPHA cfg <= 1)%R ->
  (forall u stored, In u users -> face_embedding u = Some stored ->
                    np_linalg_norm stored = 1%R) ->
  login_face cfg V E P users host n frames
  = (w, Returned (Response st body)) ->
  unit_norm (embedding_written w).
Proof.
  intros Hthr Halpha Hunit H.
  destruct (login_response_inv _ _ _ _ _ _ _ _ _ _ _ H)
    as [user [stored [live [mid [new [sim [updated
          [Hu [He [Hs [Hl [Hp [Hm [Hx [Hv [Ha [-> _]]]]]]]]]]]]]]]]].
  simpl. rewrite <- Ha.
  unfold first_named in Hu. apply find_some in Hu. destruct Hu as [Hin _].
  destruct (verify_face_some _ _ _ _ _ Hv) as [Hlen [Hsim Hm']].
  assert (Hle : (SIMILARITY_THRESHOLD cfg <= sim)%R) by now apply Hm'.
  apply (match_update_unit cfg stored new sim);
    [exact (Hunit user stored Hin Hs)| |exact Halpha|lra|exact Hv].
  pose proof (extract_embedding_spec V E mid) as Hspec.
  rewrite Hx in Hspec. destruct Hspec as [Hone|Hzero]; [exact Hone|].
  rewrite Hsim, (dot_zero_cells new Hzero) in Hle. lra.
Qed.

Lemma login_keeps_unit_norm_witness :
  exists w body,
    login_face settings (vision true) env platform [alice] None "alice"
      [live_frame []; live_frame [xff]]
    = (w, Returned (Response 200 body))
    /\ unit_norm (embedding_written w).
Proof.
  destruct synthetic_login as [w [body H]].
  exists w, body. split; [exact H|].
  apply (login_keeps_unit_norm settings (vision true) env platform [alice]
           None "alice" [live_frame []; live_frame [xff]] w 200 body).
  - simpl. lra.
  - simpl. lra.
  - intros u stored [<-|[]] Hs. injection Hs as <-. apply unit_3_4.
  - exact H.
Defined.

End LoginWitnesses.

Section RegistrationClaims.
Import Config FaceRecognition Np Providers Liveness Embedding Auth.
Import Synthetic SyntheticFaces.
Local Open Scope string_scope.

(** The successful path of [register_face], read backwards. *)
Lemma register_response_inv (V : Vision) (E : FaceEnv) (P : Platform)
    (users users' : list User) (n ph : string) (img : list byte) (st : Z)
    (body : FaceVerifyResponse) :
  register_face V E P users n ph img = (users', Response st body) ->
  exists e,
    (2 <= len P (strip P n) <= 100)%nat
    /\ (6 <= len P (strip P ph))%nat
    /\ first_named users (strip P n) = None
    /\ (Z.of_nat (length img) <= MAX_UPLOAD_MB * 1024 * 1024)%Z
    /\ passed (check_liveness_single V img) = true
    /\ extract_embedding V E img = Some e
    /\ users' = (users ++ [mkUser (next_id P users) (strip P n)
                             (strip P ph) (Some e) true true])%list
    /\ st = 201%Z
    /\ similarity body = 1%R
    /\ out_name (user body) = strip P n.
Proof.
  unfold register_face. cbv zeta.
  destruct (Nat.ltb_spec (len P (strip P n)) 2) as [|Hlo];
    [discriminate|].
  destruct (Nat.ltb_spec 100 (len P (strip P n))) as [|Hhi];
    [discriminate|]. simpl orb. cbv iota.
  destruct (Nat.ltb_spec (len P (strip P ph)) 6) as [|Hph];
    [discriminate|].
  destruct (first_named users (strip P n)) eqn:Hfree; [discriminate|].
  destruct (Z.ltb_spec (MAX_UPLOAD_MB * 1024 * 1024)
              (Z.of_nat (length img))) as [|Hsize]; [discriminate|].
  destruct (passed (check_liveness_single V img)) eqn:Hlive;
    [|discriminate]. simpl negb. cbv iota.
  destruct (extract_embedding V E img) as [e|] eqn:Hx; [|discriminate].
  intros H. injection H as <- <- <-.
  exists e. repeat split; try assumption; lia.
Qed.

(** [register_face] changes the users table only by appending at most
    one row, and never creates a second user of the same name: distinct
    names stay distinct. *)
Theorem register_keeps_names_unique (V : Vision) (E : FaceEnv)
    (P : Platform) (users : list User) (n ph : string) (img : list byte) :
  NoDup (map name users) ->
  NoDup (map name (fst (register_face V E P users n ph img)))
  /\ exists added,
       fst (register_face V E P users n ph img) = (users ++ added)%list
       /\ (length added <= 1)%nat.
Proof.
  intros Hnd.
  destruct (register_face V E P users n ph img) as [users' rep] eqn:H.
  destruct rep as [st body|st detail].
  - destruct (register_response_inv _ _ _ _ _ _ _ _ _ _ H)
      as [e [_ [_ [Hfree [_ [_ [_ [-> _]]]]]]]].
    simpl. split.
    + rewrite map_app. apply NoDup_app; [exact Hnd| |].
      * simpl. constructor; [intros []|constructor].
      * intros a Ha [<-|[]]. exact (first_named_none _ _ Hfree Ha).
    + eexists. split; [reflexivity|]. simpl. lia.
  - assert (Hsame : users' = users).
    { revert H. unfold register_face. cbv zeta.
      repeat match goal with
             | |- context [if ?c then _ else _] => destruct c
             | |- context [match ?x with _ => _ end] => destruct x
             end;
        intros H; injection H as <-; try reflexivity; discriminate. }
    subst users'. simpl. split; [exact Hnd|].
    exists []. split; [now rewrite app_nil_r|]. simpl. lia.
Qed.

(** The forward reading of the successful path. *)
Lemma register_face_success (V : Vision) (E : FaceEnv) (P : Platform)
    (users : list User) (n ph : string) (img : list byte) (e : list R) :
  (2 <= len P (strip P n) <= 100)%nat ->
  (6 <= len P (strip P ph))%nat ->
  first_named users (strip P n) = None ->
  (Z.of_nat (length img) <= MAX_UPLOAD_MB * 1024 * 1024)%Z ->
  passed (check_liveness_single V img) = true ->
  extract_embedding V E img = Some e ->
  exists body,
    register_face V E P users n ph img
    = ((users ++ [mkUser (next_id P users) (strip P n) (strip P ph)
                    (Some e) true true])%list,
       Response 201 body).
Proof.
  intros [Hlo Hhi] Hph Hfree Hsize Hlive Hx.
  unfold register_face. cbv zeta.
  destruct (Nat.ltb_spec (len P (strip P n)) 2); [lia|].
  destruct (Nat.ltb_spec 100 (len P (strip P n))); [lia|].
  simpl orb. cbv iota.
  destruct (Nat.ltb_spec (len P (strip P ph)) 6); [lia|].
  rewrite Hfree.
  destruct (Z.ltb_spec (MAX_UPLOAD_MB * 1024 * 1024)
              (Z.of_nat (length img))); [lia|].
  rewrite Hlive. simpl negb. cbv iota. rewrite Hx.
  eexists. reflexivity.
Qed.

Lemma synthetic_register :
  exists body,
    register_face (vision true) env platform [] "alice" "5550100"
      (live_frame [])
    = ([alice], Response 201 body).
Proof.
  apply (register_face_success (vision true) env platform []
           "alice" "5550100" (live_frame []) [3 / 5; 4 / 5]%R).
  - simpl. lia.
  - simpl. lia.
  - reflexivity.
  - simpl. lia.
  - vm_compute. reflexivity.
  - apply synthetic_extract.
Qed.

Lemma register_keeps_names_unique_witness :
  NoDup (map name (fst (register_face (vision true) env platform [alice]
                          "alice" "5550100" (live_frame [])))).
Proof.
  apply (register_keeps_names_unique (vision true) env platform [alice]
           "alice" "5550100" (live_frame [])).
  simpl. constructor; [intros []|constructor].
Defined.

(** A 201 response of [register_face] means that the stripped name has
    2 to 100 characters and was free, the stripped phone number has at
    least 6, the image is at most 10 MiB, passed single-frame liveness
    and yielded an embedding; the row appended carries that embedding,
    normalised (or null), and is enrolled and active. *)
Theorem registration_requires (V : Vision) (E : FaceEnv) (P : Platform)
    (users users' : list User) (n ph : string) (img : list byte) (st : Z)
    (body : FaceVerifyResponse) :
  register_face V E P users n ph img = (users', Response st body) ->
  exists u e,
    users' = (users ++ [u])%list
    /\ name u = strip P n /\ phone_number u = strip P ph
    /\ (2 <= len P (name u) <= 100)%nat
    /\ (6 <= len P (phone_number u))%nat
    /\ ~ In (name u) (map name users)
    /\ (Z.of_nat (length img) <= 10485760)%Z
    /\ passed (check_liveness_single V img) = true
    /\ face_embedding u = Some e /\ extract_embedding V E img = Some e
    /\ (np_linalg_norm e = 1%R \/ Forall (fun x => x = 0%R) e)
    /\ face_enrolled u = true /\ is_active u = true
    /\ st = 201%Z.
Proof.
  intros H.
  destruct (register_response_inv _ _ _ _ _ _ _ _ _ _ H)
    as [e [Hn [Hph [Hfree [Hsize [Hlive [Hx [-> [-> _]]]]]]]]].
  eexists. exists e. split; [reflexivity|]. simpl.
  repeat split; try assumption; try lia.
  - exact (first_named_none _ _ Hfree).
  - pose proof (extract_embedding_spec V E img) as Hs.
    now rewrite Hx in Hs.
Qed.

Lemma registration_requires_witness :
  exists u, [alice] = ([] ++ [u])%list /\ face_enrolled u = true.
Proof.
  destruct synthetic_register as [body H].
  destruct (registration_requires _ _ _ _ _ _ _ _ _ _ H)
    as [u [e [Hu [_ [_ [_ [_ [_ [_ [_ [_ [_ [_ [He _]]]]]]]]]]]]]].
  exists u. split; assumption.
Defined.

(** Enrolment and login compose: a user registered from an image whose
    embedding is not null is accepted, under the default settings, by a
    login whose frames pass liveness and whose middle frame is that
    image; the similarity reported is that of 1.0 and the template
    written back has norm 1. *)
Theorem enrol_then_login (V : Vision) (E : FaceEnv) (P : Platform)
    (users users' : list User) (n ph : string) (img : list byte) (st : Z)
    (body : FaceVerifyResponse) (e : list R) (host : option string)
    (frames : list (list byte)) (live : LivenessResult) :
  register_face V E P users n ph img = (users', Response st body) ->
  extract_embedding V E img = Some e ->
  np_linalg_norm e = 1%R ->
  check_liveness_sequence V frames = Returned live ->
  passed live = true ->
  nth_error frames (Nat.div (length frames) 2) = Some img ->
  exists w body',
    login_face settings V E P users' host (strip P n) frames
    = (w, Returned (Response 200 body'))
    /\ similarity body' = round4 P 1%R
    /\ out_name (user body') = strip P n
    /\ unit_norm (embedding_written w).
Proof.
  intros Hreg Hx Hunit Hl Hp Hm.
  destruct (register_response_inv _ _ _ _ _ _ _ _ _ _ Hreg)
    as [e' [_ [_ [Hfree [_ [_ [Hx' [-> _]]]]]]]].
  assert (e' = e) by congruence. subst e'.
  set (u := mkUser (next_id P users) (strip P n) (strip P ph) (Some e)
                   true true).
  assert (Hv : verify_face settings e e = Some (true, 1%R)).
  { destruct (self_similarity_any settings e Hunit) as [m [Hm' Hiff]].
    rewrite Hm'. destruct Hiff as [_ Hb]. rewrite Hb; [reflexivity|].
    simpl. lra. }
  assert (Hupd : unit_norm (adaptive_update settings e e None)).
  { apply (match_update_unit settings e e 1%R); try assumption;
      simpl; lra. }
  destruct Hupd as [wv [Ha Hnorm]].
  exists (mkWrites [_log_attempt P (Some (id u)) true (Some 1%R) true host]
            (Some (map Finite wv))).
  eexists. split; [|split; [|split]].
  - apply (login_face_success settings V E P (users ++ [u]) host
             (strip P n) frames u e e live img 1%R (map Finite wv));
      try assumption; try reflexivity.
    apply (first_named_last users u). exact Hfree.
  - reflexivity.
  - reflexivity.
  - simpl. exists wv. split; [reflexivity|exact Hnorm].
Qed.

Lemma enrol_then_login_witness :
  exists w body',
    login_face settings (vision true) env platform [alice] None "alice"
      [live_frame [xff]; live_frame []; live_frame [xff]]
    = (w, Returned (Response 200 body')).
Proof.
  destruct synthetic_register as [body Hreg].
  destruct (returned_passed
              (check_liveness_sequence (vision true)
                 [live_frame [xff]; live_frame []; live_frame [xff]]))
    as [live [Hl Hp]]; [vm_compute; reflexivity|].
  destruct (enrol_then_login (vision true) env platform [] [alice]
              "alice" "5550100" (live_frame []) 201 body
              [3 / 5; 4 / 5]%R None
              [live_frame [xff]; live_frame []; live_frame [xff]] live
              Hreg (synthetic_extract true []) unit_3_4 Hl Hp eq_refl)
    as [w [body' [H _]]].
  exists w, body'. exact H.
Defined.

End RegistrationClaims.

Section MissingModels.
Import Config FaceRecognition Np Providers DepthCheck Liveness Embedding.
Import Auth Synthetic SyntheticFaces.
Local Open Scope string_scope.

Lemma missing_extract (V : Vision) (E : FaceEnv) (b : list byte) :
  loaded E = None ->
  YUNET_exists E = false \/ SFACE_exists E = false ->
  extract_embedding V E b = None.
Proof.
  intros Hl Hmiss. unfold extract_embedding, _get_models. rewrite Hl.
  destruct Hmiss as [-> | ->]; [reflexivity|].
  destruct (YUNET_exists E); reflexivity.
Qed.

(** With a face model file missing and nothing loaded, the
    [RuntimeError] of [_get_models] never reaches the client:
    [extract_embedding] answers [None], so no registration and no login
    can succeed, and a request that is otherwise in order is refused with
    422 as if no face had been found. *)
Theorem missing_model_reads_as_no_face (V : Vision) (E : FaceEnv)
    (P : Platform) :
  loaded E = None ->
  YUNET_exists E = false \/ SFACE_exists E = false ->
  (forall users n ph img users' st body,
     register_face V E P users n ph img <> (users', Response st body))
  /\ (forall users n ph img,
        (2 <= len P (strip P n) <= 100)%nat ->
        (6 <= len P (strip P ph))%nat ->
        first_named users (strip P n) = None ->
        (Z.of_nat (length img) <= MAX_UPLOAD_MB * 1024 * 1024)%Z ->
        passed (check_liveness_single V img) = true ->
        register_face V E P users n ph img
        = (users, HTTPException 422 "No face detected in image"))
  /\ (forall cfg users host n frames w st body,
        login_face cfg V E P users host n frames
        <> (w, Returned (Response st body))).
Proof.
  intros Hl Hmiss. split; [|split].
  - intros users n ph img users' st body H.
    destruct (register_response_inv _ _ _ _ _ _ _ _ _ _ H)
      as [e [_ [_ [_ [_ [_ [Hx _]]]]]]].
    rewrite (missing_extract V E img Hl Hmiss) in Hx. discriminate.
  - intros users n ph img [Hlo Hhi] Hph Hfree Hsize Hlive.
    unfold register_face. cbv zeta.
    destruct (Nat.ltb_spec (len P (strip P n)) 2); [lia|].
    destruct (Nat.ltb_spec 100 (len P (strip P n))); [lia|].
    simpl orb. cbv iota.
    destruct (Nat.ltb_spec (len P (strip P ph)) 6); [lia|].
    rewrite Hfree.
    destruct (Z.ltb_spec (MAX_UPLOAD_MB * 1024 * 1024)
                (Z.of_nat (length img))); [lia|].
    rewrite Hlive. simpl negb. cbv iota.
    now rewrite (missing_extract V E img Hl Hmiss).
  - intros cfg users host n frames w st body H.
    destruct (login_response_inv _ _ _ _ _ _ _ _ _ _ _ H)
      as [user [stored [live [mid [new [sim [updated
            [_ [_ [_ [_ [_ [_ [Hx _]]]]]]]]]]]]]].
    rewrite (missing_extract V E mid Hl Hmiss) in Hx. discriminate.
Qed.

Lemma missing_model_reads_as_no_face_witness :
  register_face (vision true) missing platform [] "alice" "5550100"
    (live_frame [])
  = ([], HTTPException 422 "No face detected in image").
Proof.
  apply (proj1 (proj2 (missing_model_reads_as_no_face (vision true) missing
                         platform eq_refl (or_intror eq_refl)))).
  - simpl. lia.
  - simpl. lia.
  - reflexivity.
  - simpl. lia.
  - vm_compute. reflexivity.
Defined.

Lemma check_depth_readings_witness :
  0 <= snd (fst (check_depth (vision true) (picture x04 screen)
                   (0, 0, 80, 80)%Z)).
Proof.
  pose proof (check_depth_readings (vision true) (picture x04 screen)
                (0, 0, 80, 80)%Z) as H.
  destruct (check_depth (vision true) (picture x04 screen)
              (0, 0, 80, 80)%Z) as [[p r] s].
  exact (proj1 H).
Defined.

End MissingModels.
